(** * Proactive financial monitor: the stream-correlation and trigger engine

    A shallow embedding of [monitor_agent.py]: the per-ticker state
    dictionary [agent_state], the sentiment helper
    [analyze_news_sentiment] and the two subscribers
    [handle_stock_message] and [handle_news_message], and of the
    publishing loop [run_news_producer] of [news_producer.py], followed
    by the properties the specification states about them and further
    properties read off the code.

    Conventions of the embedding.
    - A Python [float] is a binary64 value: Rocq's primitive [float].
    - A [datetime.datetime] is an instant in microseconds together with
      its time-zone awareness (a message field of this type takes a
      naive and an aware value alike); ordering a naive against an aware
      value raises [TypeError], as in Python.
    - A Python [str] is a [string]; the reply of a chain is read as
      ASCII text: [upper] maps [a-z] to [A-Z] and keeps every other
      code point.
    - [agent_state] is a [gmap] from ticker to a record with the three
      keys of the inner dictionary.
    - An exception is a value [Raised e] of [py_result]; [try]/[except]
      is a [match] on it.
    - A coroutine is cut at its [await]: the part before it yields either
      [Finished] or [Awaiting], the part after it is a second function.
    - Every [logger] call appends one [log_record]. *)

From Stdlib Require Import Floats ZArith Ascii Permutation.
From stdpp Require Import gmap strings list sorting.

#[local] Set Warnings "-inexact-float".

(** ** Python values *)

Inductive exn := TypeError | ZeroDivisionError | CallError.

Inductive py_result (A : Type) :=
| Returned (a : A)
| Raised (e : exn).
Arguments Returned {A} a.
Arguments Raised {A} e.

#[global] Instance py_ret : MRet py_result := @Returned.
#[global] Instance py_bind : MBind py_result :=
  λ A B f m, match m with Returned a => f a | Raised e => Raised e end.

(** [try: body / except Exception: handler]. *)
Definition try_except {A} (body : py_result A) (handler : exn → A) : A :=
  match body with
  | Returned a => a
  | Raised e => handler e
  end.

(** [datetime.datetime]: [micros] counts microseconds (of UTC for an
    aware value, of the wall clock for a naive one). *)
Record datetime := { tz_aware : bool; micros : Z }.

(** [a < b] on datetimes. *)
Definition datetime_lt (a b : datetime) : py_result bool :=
  if Bool.eqb (tz_aware a) (tz_aware b)
  then Returned (micros a <? micros b)%Z
  else Raised TypeError.

(** [a / b] on floats: Python raises on a zero divisor. *)
Definition py_truediv (a b : float) : py_result float :=
  if (b =? 0)%float then Raised ZeroDivisionError else Returned (a / b)%float.

(** *** Strings *)

(** [str.isspace] on the code points below 256: the characters
    [strip] and [split] treat as white space. *)
Definition isspace (c : ascii) : bool :=
  let n := nat_of_ascii c in
  ((9 <=? n) && (n <=? 13)) || ((28 <=? n) && (n <=? 32))
  || (n =? 133) || (n =? 160).

Fixpoint lstrip (s : string) : string :=
  match s with
  | EmptyString => EmptyString
  | String c s' => if isspace c then lstrip s' else s
  end.

Fixpoint rstrip (s : string) : string :=
  match s with
  | EmptyString => EmptyString
  | String c s' =>
      match rstrip s' with
      | EmptyString => if isspace c then EmptyString else String c EmptyString
      | r => String c r
      end
  end.

Definition strip (s : string) : string := rstrip (lstrip s).

Definition upper_char (c : ascii) : ascii :=
  let n := nat_of_ascii c in
  if (97 <=? n) && (n <=? 122) then ascii_of_nat (n - 32) else c.

Fixpoint upper (s : string) : string :=
  match s with
  | EmptyString => EmptyString
  | String c s' => String (upper_char c) (upper s')
  end.

(** [s.split()]: the maximal runs of non-space characters; [word] is the
    run being read. *)
Fixpoint split_from (word s : string) : list string :=
  match s with
  | EmptyString => if String.eqb word "" then [] else [word]
  | String c s' =>
      if isspace c
      then (if String.eqb word "" then split_from "" s'
            else word :: split_from "" s')
      else split_from (word +:+ String c EmptyString) s'
  end.

Definition split (s : string) : list string := split_from "" s.

(** [needle in hay] on strings. *)
Fixpoint contains (needle hay : string) : bool :=
  String.prefix needle hay
  || match hay with
     | EmptyString => false
     | String _ hay' => contains needle hay'
     end.

(** [x in l] on a list of strings. *)
Definition mem (x : string) (l : list string) : bool := bool_decide (x ∈ l).

(** ** Messages, state and configuration *)

Record StockMessage := {
  ticker : string;
  price : float;
  stock_timestamp : datetime
}.

Record NewsMessage := {
  headline : string;
  source : string;
  timestamp : datetime
}.

(** One entry of [recent_news_sentiments]: [(timestamp, sentiment)]. *)
Definition sentiment_entry : Type := datetime * string.

(** The inner dictionary of [agent_state]. [last_alert_time] holds a
    value of [datetime.datetime.now()], a naive datetime, kept as its
    microseconds. *)
Record ticker_state := {
  last_price : option float;
  recent_news_sentiments : list sentiment_entry;
  last_alert_time : option Z
}.

Abbreviation state := (gmap string ticker_state).

Definition agent_state : state :=
  {[ "NVDA"%string := {| last_price := None;
                  recent_news_sentiments := [];
                  last_alert_time := None |} ]}.

Definition MAX_NEWS_HISTORY : nat := 3.
Definition PRICE_CHANGE_THRESHOLD_PERCENT : float := 5.0%float.
Definition ALERT_COOLDOWN_SECONDS : Z := 60 * 10.

Definition set_last_price (p : float) (r : ticker_state) : ticker_state :=
  {| last_price := Some p;
     recent_news_sentiments := recent_news_sentiments r;
     last_alert_time := last_alert_time r |}.

Definition set_recent_news_sentiments
    (w : list sentiment_entry) (r : ticker_state) : ticker_state :=
  {| last_price := last_price r;
     recent_news_sentiments := w;
     last_alert_time := last_alert_time r |}.

Definition set_last_alert_time (t : Z) (r : ticker_state) : ticker_state :=
  {| last_price := last_price r;
     recent_news_sentiments := recent_news_sentiments r;
     last_alert_time := Some t |}.

(** ** Logging *)

Inductive level := INFO | WARNING | ERROR.

Inductive log_message :=
| SentimentChainUnavailable
| UnexpectedSentimentFormat (content : string)
| SentimentApiCallError (headline : string)
| ReceivedStock (ticker : string) (price : float)
| SkippingInvalidStock (msg : StockMessage)
| InitializedState (ticker : string)
| PriceChange (ticker : string) (percent : float)
| FirstValidPrice (ticker : string)
| Trigger (ticker : string) (percent : float)
| CallingLLM
| GeneratedInsight (insight : string)
| ErrorGeneratingInsight
| InsightChainUnavailable
| UnhandledStockError
| ReceivedNews (headline : string)
| SkippingInvalidNews (msg : NewsMessage)
| AnalyzedSentiment (sentiment : string)
| UpdatedSentiments (ticker : string) (sentiments : list string)
| StateNotInitialized (ticker : string)
| UnhandledNewsError.

Definition log_record : Type := level * log_message.

(** ** The language-model chains *)

(** What awaiting [chain.ainvoke] gives back: a response whose
    [content] is [text], or an exception raised inside the surrounding
    [try] (by the call, or by [.strip()] on a content that is no text). *)
Inductive llm_reply :=
| Content (text : string)
| Fails.

Definition ainvoke (reply : llm_reply) : py_result string :=
  match reply with
  | Content text => Returned text
  | Fails => Raised CallError
  end.

(** The keyword arguments of [proactive_insight_chain.ainvoke]. *)
Record insight_context := {
  ctx_ticker : string;
  ctx_current_price : float;
  ctx_last_price : float;
  ctx_price_change_percent : float;
  ctx_recent_news_sentiment : string;
  ctx_news_count : nat
}.

(** A coroutine stopped at its end or at an [await], with the state and
    the log it leaves behind. *)
Inductive suspended (K : Type) :=
| Finished (st : state) (log : list log_record)
| Awaiting (st : state) (log : list log_record) (k : K).
Arguments Finished {K} st log.
Arguments Awaiting {K} st log k.

(** ** Sorting the sentiment window *)

(** [sentiments.sort(key=lambda item: item[0], reverse=True)] is a stable
    sort by descending timestamp that only asks [key a < key b]. When
    every comparison answers, its result is the one of this insertion
    sort (a stable sort has one result); it raises as soon as a
    comparison raises. *)
Fixpoint insert_desc (x : sentiment_entry) (l : list sentiment_entry)
  : py_result (list sentiment_entry) :=
  match l with
  | [] => Returned [x]
  | y :: l' =>
      lt ← datetime_lt x.1 y.1;
      if lt : bool then r ← insert_desc x l'; mret (y :: r)
      else mret (x :: l)
  end.

Fixpoint sort_desc (l : list sentiment_entry)
  : py_result (list sentiment_entry) :=
  match l with
  | [] => Returned []
  | x :: l' => s ← sort_desc l'; insert_desc x s
  end.

Section Agent.

(** A [list.sort] that raises leaves the list object holding all its
    items in an order that depends on how far the sort went:
    [sort_residue] is that order, known only to be a rearrangement. *)
Variable sort_residue : list sentiment_entry → list sentiment_entry.
Hypothesis sort_residue_perm : ∀ l, Permutation (sort_residue l) l.

(** The module-level chains: [true] when the start-up code built the
    chain, [false] when it was left at [None]. *)
Variable news_sentiment_chain : bool.
Variable proactive_insight_chain : bool.

(** ** [analyze_news_sentiment] *)

Definition valid_sentiments : list string :=
  ["POSITIVE"; "NEGATIVE"; "NEUTRAL"]%string.

(** The body of the [try] once the response is there. *)
Definition extract_sentiment (content : string) : string * list log_record :=
  let sentiment := upper (strip content) in
  let response_words := split sentiment in
  let extracted_sentiment :=
    match find (λ valid, mem valid response_words) valid_sentiments with
    | Some valid => valid
    | None =>
        match find (λ valid, contains valid sentiment) valid_sentiments with
        | Some valid => valid
        | None => "UNKNOWN"%string
        end
    end in
  (extracted_sentiment,
   if String.eqb extracted_sentiment "UNKNOWN"
   then [(WARNING, UnexpectedSentimentFormat content)] else []).

(** The part of [analyze_news_sentiment] after [await ... ainvoke],
    inside its [try]/[except]. *)
Definition analyze_news_sentiment_resume (headline : string) (reply : llm_reply)
  : py_result string * list log_record :=
  try_except
    (content ← ainvoke reply;
     let '(extracted, log) := extract_sentiment content in
     mret (Returned extracted, log))
    (λ e, (Returned "ERROR_API_CALL"%string,
           [(ERROR, SentimentApiCallError headline)])).

(** The whole helper, for a caller that awaits it to its end. *)
Definition analyze_news_sentiment (headline : string) (reply : llm_reply)
  : py_result string * list log_record :=
  if negb news_sentiment_chain
  then (Returned "ERROR_LLM_UNAVAILABLE"%string,
        [(ERROR, SentimentChainUnavailable)])
  else analyze_news_sentiment_resume headline reply.

(** ** [handle_stock_message] *)

Definition price_change (current_price last_price : float) : py_result float :=
  q ← py_truediv (current_price - last_price)%float last_price;
  mret (q * 100)%float.

(** [time_since_last_alert > ALERT_COOLDOWN_SECONDS]: the time since
    the last alert is [float('inf')] without one, and otherwise
    [total_seconds()] of a difference of [d] microseconds, which
    exceeds the whole number of seconds [c] exactly when
    [d > c * 10^6]. *)
Definition cooldown_elapsed (now : Z) (last_alert_time : option Z) : bool :=
  match last_alert_time with
  | None => true
  | Some t => (ALERT_COOLDOWN_SECONDS * 1000000 <? now - t)%Z
  end.

(** [", ".join(sentiments_list) if sentiments_list else "No recent news"]. *)
Definition sentiment_summary (sentiments_list : list string) : string :=
  match sentiments_list with
  | [] => "No recent news"%string
  | _ => String.concat ", " sentiments_list
  end.

(** The handler up to [await proactive_insight_chain.ainvoke(...)], or
    to its end when it returns before. *)
Definition handle_stock_message_begin
    (st : state) (msg : StockMessage) (now : Z) : suspended insight_context :=
  let log0 := [(INFO, ReceivedStock (ticker msg) (price msg))] in
  let ticker := ticker msg in
  if String.eqb ticker "" || (price msg <=? 0)%float
  then Finished st (log0 ++ [(WARNING, SkippingInvalidStock msg)])
  else
    match st !! ticker with
    | None =>
        Finished
          (<[ticker := {| last_price := Some (price msg);
                          recent_news_sentiments := [];
                          last_alert_time := None |}]> st)
          (log0 ++ [(INFO, InitializedState ticker)])
    | Some rec =>
        let last_price := last_price rec in
        let current_price := price msg in
        let rec1 := set_last_price current_price rec in
        let st1 := <[ticker := rec1]> st in
        match last_price with
        | Some last_price =>
            if (0 <? last_price)%float
            then
              match price_change current_price last_price with
              | Raised _ =>
                  Finished st1 (log0 ++ [(ERROR, UnhandledStockError)])
              | Returned price_change_percent =>
                  let log1 :=
                    log0 ++ [(INFO, PriceChange ticker price_change_percent)] in
                  if (PRICE_CHANGE_THRESHOLD_PERCENT <=? abs price_change_percent)%float
                     && cooldown_elapsed now (last_alert_time rec1)
                  then
                    let log2 :=
                      log1 ++ [(WARNING, Trigger ticker price_change_percent)] in
                    let rec2 := set_last_alert_time now rec1 in
                    let st2 := <[ticker := rec2]> st1 in
                    let sentiments_list := (recent_news_sentiments rec2).*2 in
                    if proactive_insight_chain
                    then
                      Awaiting st2 (log2 ++ [(INFO, CallingLLM)])
                        {| ctx_ticker := ticker;
                           ctx_current_price := current_price;
                           ctx_last_price := last_price;
                           ctx_price_change_percent := price_change_percent;
                           ctx_recent_news_sentiment :=
                             sentiment_summary sentiments_list;
                           ctx_news_count := length sentiments_list |}
                    else
                      Finished st2 (log2 ++ [(ERROR, InsightChainUnavailable)])
                  else Finished st1 log1
              end
            else Finished st1 (log0 ++ [(INFO, FirstValidPrice ticker)])
        | None => Finished st1 (log0 ++ [(INFO, FirstValidPrice ticker)])
        end
    end.

(** The handler after the [await]: the inner [try]/[except] around the
    call and [insight_response.content.strip()]. No statement there
    reads or writes [agent_state]. *)
Definition handle_stock_message_resume (reply : llm_reply) : list log_record :=
  try_except
    (content ← ainvoke reply;
     mret [(INFO, GeneratedInsight (strip content))])
    (λ e, [(ERROR, ErrorGeneratingInsight)]).

(** The handler run to its end with nothing scheduled in between. *)
Definition handle_stock_message
    (st : state) (msg : StockMessage) (now : Z) (reply : llm_reply)
  : state * list log_record :=
  match handle_stock_message_begin st msg now with
  | Finished st' log => (st', log)
  | Awaiting st' log _ => (st', log ++ handle_stock_message_resume reply)
  end.

(** ** [handle_news_message] *)

(** The rest of the [try] body once [await analyze_news_sentiment(...)]
    has given [outcome]; an exception there or in [sort] goes to the
    handler's [except Exception]. [sentiments] is the list object held
    by the state: [append] and [sort] change it in place, and only the
    last assignment replaces it by the slice. *)
Definition handle_news_message_continue
    (st : state) (msg : NewsMessage) (outcome : py_result string * list log_record)
  : state * list log_record :=
  let ticker := "NVDA"%string in
  match outcome with
  | (Raised _, log) => (st, log ++ [(ERROR, UnhandledNewsError)])
  | (Returned sentiment, log) =>
      let log1 := log ++ [(INFO, AnalyzedSentiment sentiment)] in
      match st !! ticker with
      | Some rec =>
          if negb (contains "ERROR" sentiment)
             && negb (String.eqb sentiment "UNKNOWN")
          then
            let sentiments :=
              recent_news_sentiments rec ++ [(timestamp msg, sentiment)] in
            match sort_desc sentiments with
            | Returned sorted =>
                let kept := take MAX_NEWS_HISTORY sorted in
                (<[ticker := set_recent_news_sentiments kept rec]> st,
                 log1 ++ [(INFO, UpdatedSentiments ticker kept.*2)])
            | Raised _ =>
                (<[ticker :=
                     set_recent_news_sentiments (sort_residue sentiments) rec]> st,
                 log1 ++ [(ERROR, UnhandledNewsError)])
            end
          else (st, log1)
      | None => (st, log1 ++ [(WARNING, StateNotInitialized ticker)])
      end
  end.

(** The handler up to the [await] inside [analyze_news_sentiment]; with
    no sentiment chain the helper returns at once and the handler runs
    to its end. *)
Definition handle_news_message_begin (st : state) (msg : NewsMessage)
  : suspended NewsMessage :=
  let log0 := [(INFO, ReceivedNews (headline msg))] in
  if String.eqb (headline msg) ""
  then Finished st (log0 ++ [(WARNING, SkippingInvalidNews msg)])
  else if negb news_sentiment_chain
  then
    let '(st', log) :=
      handle_news_message_continue st msg
        (Returned "ERROR_LLM_UNAVAILABLE"%string,
         [(ERROR, SentimentChainUnavailable)]) in
    Finished st' (log0 ++ log)
  else Awaiting st log0 msg.

(** The handler from the answer of the sentiment chain on, run against
    the state as it is then. *)
Definition handle_news_message_resume
    (st : state) (msg : NewsMessage) (reply : llm_reply)
  : state * list log_record :=
  handle_news_message_continue st msg
    (analyze_news_sentiment_resume (headline msg) reply).

(** The handler run to its end with nothing scheduled in between. *)
Definition handle_news_message
    (st : state) (msg : NewsMessage) (reply : llm_reply)
  : state * list log_record :=
  match handle_news_message_begin st msg with
  | Finished st' log => (st', log)
  | Awaiting st' log msg' =>
      let '(st'', log') := handle_news_message_resume st' msg' reply in
      (st'', log ++ log')
  end.

(** ** Event sequences *)

(** One delivered message with what the environment answers while it
    is handled: the clock read by the stock handler and the reply of
    the chain it awaits. *)
Inductive event :=
| StockEvent (msg : StockMessage) (now : Z) (reply : llm_reply)
| NewsEvent (msg : NewsMessage) (reply : llm_reply).

Definition process (st : state) (ev : event) : state * list log_record :=
  match ev with
  | StockEvent msg now reply => handle_stock_message st msg now reply
  | NewsEvent msg reply => handle_news_message st msg reply
  end.

(** The state after the handlers ran one after the other. *)
Definition run (st : state) (evs : list event) : state :=
  foldl (λ st ev, (process st ev).1) st evs.

(** ** Two handlers on one event loop *)

(** A handler task between two of its steps; the event loop switches
    tasks only where a task awaits. *)
Inductive task :=
| StockTask (msg : StockMessage) (now : Z) (reply : llm_reply)
| StockAwaitingInsight (reply : llm_reply)
| NewsTask (msg : NewsMessage) (reply : llm_reply)
| NewsAwaitingSentiment (msg : NewsMessage) (reply : llm_reply)
| TaskDone.

Definition step_task (st : state) (t : task) : state * task :=
  match t with
  | StockTask msg now reply =>
      match handle_stock_message_begin st msg now with
      | Finished st' _ => (st', TaskDone)
      | Awaiting st' _ _ => (st', StockAwaitingInsight reply)
      end
  | StockAwaitingInsight reply => (st, TaskDone)
  | NewsTask msg reply =>
      match handle_news_message_begin st msg with
      | Finished st' _ => (st', TaskDone)
      | Awaiting st' _ msg' => (st', NewsAwaitingSentiment msg' reply)
      end
  | NewsAwaitingSentiment msg reply =>
      ((handle_news_message_resume st msg reply).1, TaskDone)
  | TaskDone => (st, TaskDone)
  end.

Inductive pick := PickStock | PickNews.

Record system := {
  sys_state : state;
  sys_stock : task;
  sys_news : task
}.

Definition step (sys : system) (p : pick) : system :=
  match p with
  | PickStock =>
      let '(st', t') := step_task (sys_state sys) (sys_stock sys) in
      {| sys_state := st'; sys_stock := t'; sys_news := sys_news sys |}
  | PickNews =>
      let '(st', t') := step_task (sys_state sys) (sys_news sys) in
      {| sys_state := st'; sys_stock := sys_stock sys; sys_news := t' |}
  end.

(** The system after the event loop resumed the tasks in the order
    [schedule]. *)
Definition interleave (schedule : list pick) (sys : system) : system :=
  foldl step sys schedule.

(** ** Observations on a handler's log *)

Definition is_trigger (r : log_record) : bool :=
  match r with
  | (WARNING, Trigger _ _) => true
  | _ => false
  end.

(** The trigger fired: the handler logged its [TRIGGER] warning. *)
Definition trigger_fired (log : list log_record) : bool := existsb is_trigger log.

Definition is_skip_warning (r : log_record) : bool :=
  match r with
  | (WARNING, SkippingInvalidStock _) | (WARNING, SkippingInvalidNews _) => true
  | _ => false
  end.

(** The message was dropped with a warning. *)
Definition dropped_with_warning (log : list log_record) : bool :=
  existsb is_skip_warning log.

(** ** Notions of the specification *)

Definition suspended_state {K} (s : suspended K) : state :=
  match s with
  | Finished st _ | Awaiting st _ _ => st
  end.

Definition suspended_log {K} (s : suspended K) : list log_record :=
  match s with
  | Finished _ log | Awaiting _ log _ => log
  end.

(** The stock message passes the validation of [handle_stock_message]. *)
Definition accepted (msg : StockMessage) : bool :=
  negb (String.eqb (ticker msg) "" || (price msg <=? 0)%float).

(** [changePercent] as the specification writes it. *)
Definition change_percent (current previous : float) : float :=
  (((current - previous) / previous) * 100)%float.

(** No price event for [t] was accepted among [evs]: the next one is
    the first the agent sees for [t]. *)
Definition never_priced (t : string) (evs : list event) : Prop :=
  Forall (λ ev, match ev with
                | StockEvent msg _ _ => accepted msg = true → ticker msg ≠ t
                | NewsEvent _ _ => True
                end) evs.

(** Every price the state records passed the validation. *)
Definition prices_validated (st : state) : Prop :=
  ∀ t rec p, st !! t = Some rec → last_price rec = Some p →
             (p <=? 0)%float = false.

(** The window is ordered by timestamp, most recent first. *)
Definition sorted_desc (w : list sentiment_entry) : Prop :=
  ∀ i a b, w !! i = Some a → w !! S i = Some b → (micros b.1 ≤ micros a.1)%Z.

(** All timestamps of the window have the awareness [b]. *)
Definition uniform (b : bool) (w : list sentiment_entry) : Prop :=
  Forall (λ e, tz_aware e.1 = b) w.

(** Before its first accepted price event a ticker has no record,
    except ["NVDA"], whose record holds no price and no alert time. *)
Definition unpriced (t : string) (st : state) : Prop :=
  match st !! t with
  | None => t ≠ "NVDA"%string
  | Some rec => t = "NVDA"%string ∧ last_price rec = None
                ∧ last_alert_time rec = None
  end.

(** The record a first price event would create lazily: none before
    it, and after it one holding the price, an empty window and no
    alert time. *)
Definition seeded_by_first_price
    (evs : list event) (msg : StockMessage) (now : Z) (reply : llm_reply) : Prop :=
  let st := run agent_state evs in
  st !! ticker msg = None
  ∧ (handle_stock_message st msg now reply).1 !! ticker msg
    = Some {| last_price := Some (price msg);
              recent_news_sentiments := [];
              last_alert_time := None |}.

(** [a] may stand before [b] in the window. *)
Definition desc (a b : sentiment_entry) : Prop := (micros b.1 ≤ micros a.1)%Z.

(** The window holds a naive and an aware timestamp. *)
Definition mixed (w : list sentiment_entry) : Prop :=
  ∃ a b, a ∈ w ∧ b ∈ w ∧ tz_aware a.1 ≠ tz_aware b.1.

(** All news timestamps of [evs] have the awareness [b]. *)
Definition news_uniform (b : bool) (evs : list event) : Prop :=
  Forall (λ ev, match ev with
                | NewsEvent msg _ => tz_aware (timestamp msg) = b
                | StockEvent _ _ _ => True
                end) evs.

(** The values [analyze_news_sentiment] can return. *)
Definition sentiment_tags : list string :=
  valid_sentiments
  ++ ["UNKNOWN"; "ERROR_LLM_UNAVAILABLE"; "ERROR_API_CALL"]%string.

(** What the caller's test on the returned tag decides. *)
Definition persists (tag : string) : bool :=
  negb (contains "ERROR" tag) && negb (String.eqb tag "UNKNOWN").

(** The bound and the order the window is meant to keep. *)
Definition window_ok (w : list sentiment_entry) : Prop :=
  length w ≤ MAX_NEWS_HISTORY ∧ sorted_desc w.

(** *** Sample inputs *)

Definition naive (t : Z) : datetime := {| tz_aware := false; micros := t |}.
Definition aware (t : Z) : datetime := {| tz_aware := true; micros := t |}.

Definition nvda_price (p : float) : StockMessage :=
  {| ticker := "NVDA"; price := p; stock_timestamp := naive 0 |}.

Definition headline_at (t : datetime) : NewsMessage :=
  {| headline := "NVIDIA announces new chip"; source := "Reuters";
     timestamp := t |}.

Definition aapl_price (p : float) : StockMessage :=
  {| ticker := "AAPL"; price := p; stock_timestamp := naive 0 |}.

(** A raising sort that leaves the list in the order it had. *)
Definition unsorted (l : list sentiment_entry) : list sentiment_entry := l.

(** Four headlines with a sentiment each; the first timestamp is naive,
    the others are aware. *)
Definition mixed_timestamps : list event :=
  [NewsEvent (headline_at (naive 1)) (Content "POSITIVE");
   NewsEvent (headline_at (aware 2)) (Content "NEGATIVE");
   NewsEvent (headline_at (aware 3)) (Content "NEUTRAL");
   NewsEvent (headline_at (aware 4)) (Content "POSITIVE")].

(** The window of ["NVDA"], the ticker the news handler writes to. *)
Definition nvda_window (st : state) : option (list sentiment_entry) :=
  recent_news_sentiments <$> st !! "NVDA".

(** The window the news handler leaves for a persisted [tag]: the slice
    of the sorted list, or what a raising sort left of the list. *)
Definition window_after
    (w : list sentiment_entry) (msg : NewsMessage) (tag : string)
  : list sentiment_entry :=
  let sentiments := w ++ [(timestamp msg, tag)] in
  match sort_desc sentiments with
  | Returned sorted => take MAX_NEWS_HISTORY sorted
  | Raised _ => sort_residue sentiments
  end.

(** Every window of the state is within the bound, in descending
    order, and of awareness [b]. *)
Definition windows_kept (b : bool) (st : state) : Prop :=
  ∀ t rec, st !! t = Some rec →
           window_ok (recent_news_sentiments rec)
           ∧ uniform b (recent_news_sentiments rec).

(** What a task still does to the state when run to its end. *)
Definition pending (t : task) (st : state) : state :=
  match t with
  | StockTask msg now reply => (handle_stock_message st msg now reply).1
  | NewsTask msg reply => (handle_news_message st msg reply).1
  | NewsAwaitingSentiment msg reply => (handle_news_message_resume st msg reply).1
  | StockAwaitingInsight _ | TaskDone => st
  end.

(** The system is at a point of a sequential run from [st0]: of the
    effects [P] of the stock task and [Q] of the news task, each has
    been applied to the state as a whole or is still pending. *)
Definition linearized (st0 : state) (P Q : state → state) (sys : system) : Prop :=
  let todo_stock := pending (sys_stock sys) in
  let todo_news := pending (sys_news sys) in
  (sys_state sys = st0
   ∧ (∀ s, todo_stock s = P s) ∧ (∀ s, todo_news s = Q s))
  ∨ (sys_state sys = P st0
     ∧ (∀ s, todo_stock s = s) ∧ (∀ s, todo_news s = Q s))
  ∨ (sys_state sys = Q st0
     ∧ (∀ s, todo_stock s = P s) ∧ (∀ s, todo_news s = s))
  ∨ ((sys_state sys = Q (P st0) ∨ sys_state sys = P (Q st0))
     ∧ (∀ s, todo_stock s = s) ∧ (∀ s, todo_news s = s)).

(** ** Further notions *)

(** The record a price event leaves for its ticker: a fresh one for an
    unseen ticker, else the old one with the price and, when the trigger
    fired, the alert time replaced. *)
Definition record_after_price
    (old : option ticker_state) (p : float) (now : Z) (fired : bool) : ticker_state :=
  match old with
  | None => {| last_price := Some p;
               recent_news_sentiments := [];
               last_alert_time := None |}
  | Some rec =>
      if fired then set_last_alert_time now (set_last_price p rec)
      else set_last_price p rec
  end.

Definition is_news (ev : event) : Prop :=
  match ev with
  | NewsEvent _ _ => True
  | StockEvent _ _ _ => False
  end.

Definition is_not_initialized (r : log_record) : bool :=
  match r with
  | (WARNING, StateNotInitialized _) => true
  | _ => false
  end.

(** The news handler found no record for its ticker. *)
Definition warns_not_initialized (log : list log_record) : bool :=
  existsb is_not_initialized log.

(** The entry a news event adds to the window of ["NVDA"], if any: the
    message's timestamp with the label the helper returned. *)
Definition persisted_entry (ev : event) : option sentiment_entry :=
  match ev with
  | StockEvent _ _ _ => None
  | NewsEvent msg reply =>
      if String.eqb (headline msg) "" then None
      else
        match (analyze_news_sentiment (headline msg) reply).1 with
        | Returned tag => if persists tag then Some (timestamp msg, tag) else None
        | Raised _ => None
        end
  end.

(** All entries the events added, in the order of arrival. *)
Definition history (evs : list event) : list sentiment_entry :=
  omap persisted_entry evs.

(** [e] put into a window in descending order, behind the entries that
    are not older than [e]. *)
Fixpoint insert_last (e : sentiment_entry) (s : list sentiment_entry)
  : list sentiment_entry :=
  match s with
  | [] => [e]
  | y :: s' =>
      if (micros y.1 <? micros e.1)%Z then e :: s else y :: insert_last e s'
  end.

(** The key an event adds to the state, if any. *)
Definition accepted_ticker (ev : event) : option string :=
  match ev with
  | StockEvent msg _ _ => if accepted msg then Some (ticker msg) else None
  | NewsEvent _ _ => None
  end.

(** *** Any number of handler tasks on the event loop *)

(** The task handling a delivered message. *)
Definition task_of (ev : event) : task :=
  match ev with
  | StockEvent msg now reply => StockTask msg now reply
  | NewsEvent msg reply => NewsTask msg reply
  end.

(** The event loop resumes task [i] of the pool up to its next [await]
    or its end. *)
Definition step_pool (p : state * list task) (i : nat) : state * list task :=
  match p.2 !! i with
  | Some t => let '(st', t') := step_task p.1 t in (st', <[i := t']> p.2)
  | None => p
  end.

Definition interleave_pool (schedule : list nat) (p : state * list task)
  : state * list task :=
  foldl step_pool p schedule.

(** What is pending of the tasks, done one task after the other. *)
Definition apply_pending (st : state) (order : list task) : state :=
  foldl (λ s t, pending t s) st order.

(** ** The news producer ([news_producer.py])

    One check of the producer's loop, from the response of the news API
    to the messages published; logging is left out. Every exception
    inside the loop's [try] ends the check in the same way. *)

(** What a key of a JSON object holds, as far as the producer looks: no
    such key, [None], a string, or a value of another type, given with
    what the validation of a [str] field makes of it (a string, or
    [None] when it rejects the value). *)
Inductive json_field :=
| Absent
| Null
| Text (s : string)
| Other (validated : option string).

(** The value under ['source'] of an article. *)
Inductive source_field :=
| SourceAbsent
| SourceObject (name : json_field)
| SourceOther.

(** An element of the ['articles'] list: an object with its ['title']
    and ['source'], or a value without [get]. *)
Inductive article :=
| Article (title : json_field) (source : source_field)
| ArticleOther.

(** An article with what the environment answers when it is published:
    the clock read for the message's timestamp, and whether
    [news_publisher.publish] returns ([true]) or raises. *)
Definition article_input : Type := article * Z * bool.

(** [article.get('source', {}).get('name', 'Unknown Source')]; [None]
    when the value under ['source'] has no [get]. *)
Definition source_name (source : source_field) : option json_field :=
  match source with
  | SourceAbsent => Some (Text "Unknown Source")
  | SourceObject Absent => Some (Text "Unknown Source")
  | SourceObject name => Some name
  | SourceOther => None
  end.

(** [NewsMessage(headline=headline, source=source)]: the source has to
    validate as a string; the timestamp is [datetime.datetime.now()], a
    naive datetime. [None] when the validation raises. *)
Definition new_NewsMessage (headline : string) (source : json_field) (now : Z)
  : option NewsMessage :=
  match source with
  | Text s | Other (Some s) =>
      Some {| headline := headline; source := s;
              timestamp := {| tz_aware := false; micros := now |} |}
  | _ => None
  end.

Inductive batch_end :=
| BatchDone (new_found_in_batch : nat)
| BatchRaised.

(** The body of [for article in reversed(articles)], on the reversed
    list: the set of seen headlines after it, the messages published,
    and how the loop ended. *)
Fixpoint publish_new
    (seen_headlines_this_run : gset string) (new_found_in_batch : nat)
    (articles : list article_input)
  : gset string * list NewsMessage * batch_end :=
  match articles with
  | [] => (seen_headlines_this_run, [], BatchDone new_found_in_batch)
  | (ArticleOther, _, _) :: _ => (seen_headlines_this_run, [], BatchRaised)
  | (Article title source, now, publish_returns) :: rest =>
      match source_name source with
      | None => (seen_headlines_this_run, [], BatchRaised)
      | Some source =>
          match title with
          | Text headline =>
              if negb (String.eqb headline "")
                 && negb (bool_decide (headline ∈ seen_headlines_this_run))
              then
                match new_NewsMessage headline source now with
                | None => (seen_headlines_this_run, [], BatchRaised)
                | Some message =>
                    if publish_returns : bool
                    then
                      let '(seen, sent, e) :=
                        publish_new ({[headline]} ∪ seen_headlines_this_run)
                          (S new_found_in_batch) rest in
                      (seen, message :: sent, e)
                    else (seen_headlines_this_run, [], BatchRaised)
                end
              else publish_new seen_headlines_this_run new_found_in_batch rest
          | _ => publish_new seen_headlines_this_run new_found_in_batch rest
          end
      end
  end.

(** What [newsapi_client.get_everything] gives: an exception, a response
    whose ['articles'] is no list, or one with a list of articles (empty
    when the key is absent). *)
Inductive api_response :=
| ApiRaises
| ApiNoList
| ApiArticles (articles : list article_input).

(** One turn of the [while True] loop. *)
Definition check_news (seen_headlines_this_run : gset string) (r : api_response)
  : gset string * list NewsMessage * batch_end :=
  match r with
  | ApiRaises => (seen_headlines_this_run, [], BatchRaised)
  | ApiNoList => publish_new seen_headlines_this_run 0 (reverse [])
  | ApiArticles articles => publish_new seen_headlines_this_run 0 (reverse articles)
  end.

(** The loop over the first checks, one per response. *)
Fixpoint check_news_loop (seen_headlines_this_run : gset string)
    (responses : list api_response) : gset string * list NewsMessage :=
  match responses with
  | [] => (seen_headlines_this_run, [])
  | r :: rest =>
      let '(seen, sent, _) := check_news seen_headlines_this_run r in
      let '(seen', sent') := check_news_loop seen rest in
      (seen', sent ++ sent')
  end.

(** [run_news_producer] over its first checks: without a client it
    returns at once; the set of seen headlines starts empty. *)
Definition run_news_producer (newsapi_client : bool) (responses : list api_response)
  : gset string * list NewsMessage :=
  if newsapi_client then check_news_loop ∅ responses else (∅, []).

(** The titles of a batch that are strings, in the order of the batch. *)
Definition titles (articles : list article_input) : list string :=
  omap (λ a : article_input,
          match a.1.1 with
          | Article (Text headline) _ => Some headline
          | _ => None
          end) articles.

(** Every news message among [evs] is one of [sent]. *)
Definition news_from (sent : list NewsMessage) (evs : list event) : Prop :=
  Forall (λ ev, match ev with
                | NewsEvent msg _ => msg ∈ sent
                | StockEvent _ _ _ => True
                end) evs.

(** *** Further sample inputs *)

(** Four classified headlines with naive timestamps, not in order. *)
Definition naive_news : list event :=
  [NewsEvent (headline_at (naive 5)) (Content "positive");
   NewsEvent (headline_at (naive 7)) (Content "It is Negative.");
   NewsEvent (headline_at (naive 6)) (Content "neutral");
   NewsEvent (headline_at (naive 8)) (Content "POSITIVE")].

(** A batch of the news API: two articles, the newer one first. *)
Definition sample_batch : list article_input :=
  [(Article (Text "NVIDIA beats estimates") (SourceObject (Text "Reuters")), 20%Z, true);
   (Article (Text "NVIDIA announces new chip") SourceAbsent, 10%Z, true)].

(** The events of a monitor that receives the two headlines of
    [sample_batch] with a price in between. *)
Definition sample_feed : list event :=
  [NewsEvent {| headline := "NVIDIA beats estimates"; source := "Reuters";
                timestamp := naive 20 |} (Content "POSITIVE");
   StockEvent (nvda_price 100) 0 Fails;
   NewsEvent {| headline := "NVIDIA announces new chip"; source := "Unknown Source";
                timestamp := naive 10 |} (Content "NEUTRAL")].

(** ** Facts on binary64 values *)

Lemma float_not_positive_nan (x : float) :
  (0 <? x)%float = false → (x <=? 0)%float = false → x = nan.
Proof.
  rewrite FloatAxioms.ltb_spec, FloatAxioms.leb_spec. intros Hlt Hle.
  apply Prim2SF_inj.
  change (Prim2SF 0) with (S754_zero false) in *.
  change (Prim2SF nan) with S754_nan.
  destruct (Prim2SF x) as [s|s| |s m e]; try destruct s; try discriminate; reflexivity.
Qed.

Lemma float_positive_nonzero (x : float) :
  (0 <? x)%float = true → (x =? 0)%float = false.
Proof.
  rewrite FloatAxioms.ltb_spec, FloatAxioms.eqb_spec.
  change (Prim2SF 0) with (S754_zero false).
  destruct (Prim2SF x) as [s|s| |s m e]; try destruct s; try discriminate; reflexivity.
Qed.

Lemma float_sub_nan (x : float) : (x - nan)%float = nan.
Proof.
  apply Prim2SF_inj. rewrite FloatAxioms.sub_spec.
  change (Prim2SF nan) with S754_nan.
  destruct (Prim2SF x) as [s|s| |s m e]; try destruct s; reflexivity.
Qed.

Lemma nan_change_below_threshold (current_price : float) :
  (PRICE_CHANGE_THRESHOLD_PERCENT
     <=? abs (((current_price - nan) / nan) * 100))%float = false.
Proof. rewrite float_sub_nan. reflexivity. Qed.

(** ** The shape of a handler's effect on the state *)

Lemma trigger_fired_app (l1 l2 : list log_record) :
  trigger_fired (l1 ++ l2) = trigger_fired l1 || trigger_fired l2.
Proof. apply existsb_app. Qed.

Lemma resume_logs_no_trigger reply :
  trigger_fired (handle_stock_message_resume reply) = false.
Proof. destruct reply; reflexivity. Qed.

Lemma handle_stock_message_state st msg now reply :
  (handle_stock_message st msg now reply).1
  = suspended_state (handle_stock_message_begin st msg now).
Proof.
  unfold handle_stock_message.
  destruct (handle_stock_message_begin st msg now); reflexivity.
Qed.

Lemma handle_stock_message_fired st msg now reply :
  trigger_fired (handle_stock_message st msg now reply).2
  = trigger_fired (suspended_log (handle_stock_message_begin st msg now)).
Proof.
  unfold handle_stock_message.
  destruct (handle_stock_message_begin st msg now); simpl; [done|].
  rewrite trigger_fired_app, resume_logs_no_trigger. apply orb_false_r.
Qed.

(** The news handler leaves the state as it is or replaces the window
    of ["NVDA"]. *)
Lemma handle_news_message_continue_shape st msg outcome :
  (handle_news_message_continue st msg outcome).1 = st
  ∨ ∃ rec w, st !! "NVDA" = Some rec
      ∧ (handle_news_message_continue st msg outcome).1
        = <["NVDA" := set_recent_news_sentiments w rec]> st.
Proof.
  unfold handle_news_message_continue.
  destruct outcome as [[sentiment|e] log]; [|by left].
  destruct (st !! "NVDA") as [rec|] eqn:Hrec; [|by left].
  destruct (negb (contains "ERROR" sentiment) && negb (String.eqb sentiment "UNKNOWN"));
    [|by left].
  destruct (sort_desc _); right; eauto.
Qed.

Lemma handle_news_message_shape st msg reply :
  (handle_news_message st msg reply).1 = st
  ∨ ∃ rec w, st !! "NVDA" = Some rec
      ∧ (handle_news_message st msg reply).1
        = <["NVDA" := set_recent_news_sentiments w rec]> st.
Proof.
  unfold handle_news_message, handle_news_message_begin, handle_news_message_resume.
  destruct (String.eqb (headline msg) ""); [by left|].
  destruct (negb news_sentiment_chain).
  - pose proof (handle_news_message_continue_shape st msg
      (Returned "ERROR_LLM_UNAVAILABLE"%string, [(ERROR, SentimentChainUnavailable)])) as H.
    destruct (handle_news_message_continue _ _ _); exact H.
  - pose proof (handle_news_message_continue_shape st msg
      (analyze_news_sentiment_resume (headline msg) reply)) as H.
    destruct (handle_news_message_continue _ _ _); exact H.
Qed.

(** ** Recorded prices *)

Lemma prices_validated_init : prices_validated agent_state.
Proof.
  intros t rec p Ht Hp. unfold agent_state in Ht.
  apply lookup_singleton_Some in Ht as [_ <-]. discriminate.
Qed.

Lemma prices_validated_insert st t rec :
  prices_validated st →
  (∀ p, last_price rec = Some p → (p <=? 0)%float = false) →
  prices_validated (<[t := rec]> st).
Proof.
  intros Hst Hrec t' rec' p Hl Hp.
  destruct (decide (t = t')) as [->|Hne].
  - rewrite lookup_insert_eq in Hl. injection Hl as <-. by apply Hrec.
  - rewrite lookup_insert_ne in Hl by done. by eapply Hst.
Qed.

Lemma prices_validated_stock st msg now :
  prices_validated st →
  prices_validated (suspended_state (handle_stock_message_begin st msg now)).
Proof.
  intros Hst. unfold handle_stock_message_begin.
  destruct (String.eqb (ticker msg) "" || (price msg <=? 0)%float) eqn:Hv; [done|].
  apply orb_false_iff in Hv as [_ Hp].
  destruct (st !! ticker msg) as [rec|] eqn:Hrec; simpl.
  - destruct (last_price rec) as [lp|]; simpl;
      [|by apply prices_validated_insert; [|intros ? [= <-]]].
    destruct (0 <? lp)%float; simpl;
      [|by apply prices_validated_insert; [|intros ? [= <-]]].
    destruct (price_change (price msg) lp); simpl;
      [|by apply prices_validated_insert; [|intros ? [= <-]]].
    destruct (_ && _); simpl;
      [|by apply prices_validated_insert; [|intros ? [= <-]]].
    destruct proactive_insight_chain; simpl;
      by repeat (apply prices_validated_insert; [|intros ? [= <-]]).
  - apply prices_validated_insert; [done|]. intros p [= <-]. exact Hp.
Qed.

Lemma prices_validated_news st msg reply :
  prices_validated st → prices_validated (handle_news_message st msg reply).1.
Proof.
  intros Hst.
  destruct (handle_news_message_shape st msg reply) as [->|(rec & w & Hrec & ->)];
    [done|].
  apply prices_validated_insert; [done|]. intros p Hp. by eapply Hst.
Qed.

Lemma prices_validated_process st ev :
  prices_validated st → prices_validated (process st ev).1.
Proof.
  destruct ev; simpl; intros Hst.
  - rewrite handle_stock_message_state. by apply prices_validated_stock.
  - by apply prices_validated_news.
Qed.

Lemma run_snoc st evs ev : run st (evs ++ [ev]) = (process (run st evs) ev).1.
Proof. unfold run. by rewrite foldl_app. Qed.

Lemma prices_validated_run evs : prices_validated (run agent_state evs).
Proof.
  induction evs as [|ev evs IH] using rev_ind.
  - apply prices_validated_init.
  - rewrite run_snoc. by apply prices_validated_process.
Qed.

(** ** The trigger *)

Lemma cooldown_elapsed_spec now last :
  cooldown_elapsed now last = true
  ↔ last = None
    ∨ ∃ t, last = Some t ∧ (ALERT_COOLDOWN_SECONDS * 1000000 < now - t)%Z.
Proof.
  destruct last as [t|]; simpl.
  - rewrite Z.ltb_lt. split.
    + intros H. right. by exists t.
    + intros [H|(t' & [= <-] & H)]; [discriminate|done].
  - split; [by left|done].
Qed.

Lemma price_change_positive current_price last_price :
  (0 <? last_price)%float = true →
  price_change current_price last_price
  = Returned (change_percent current_price last_price).
Proof.
  intros Hpos. unfold price_change, py_truediv.
  by rewrite (float_positive_nonzero _ Hpos).
Qed.

(** The decision of the handler on a ticker with a recorded price. *)
Lemma stock_trigger_decision st msg now rec previous :
  accepted msg = true →
  st !! ticker msg = Some rec →
  last_price rec = Some previous →
  (previous <=? 0)%float = false →
  trigger_fired (suspended_log (handle_stock_message_begin st msg now))
  = (PRICE_CHANGE_THRESHOLD_PERCENT
       <=? abs (change_percent (price msg) previous))%float
    && cooldown_elapsed now (last_alert_time rec).
Proof.
  intros Hacc Hrec Hprev Hvalid. unfold handle_stock_message_begin.
  unfold accepted in Hacc. apply negb_true_iff in Hacc. rewrite Hacc, Hrec, Hprev.
  destruct (0 <? previous)%float eqn:Hpos.
  - rewrite (price_change_positive _ _ Hpos). simpl.
    destruct (_ && _); [|done].
    by destruct proactive_insight_chain.
  - rewrite (float_not_positive_nan _ Hpos Hvalid).
    unfold change_percent. by rewrite nan_change_below_threshold.
Qed.

(** C1: on a ticker with a recorded previous price, an accepted price
    event fires the trigger exactly when the absolute change is at
    least 5.0 percent and no alert was raised before or the last one
    is more than ten minutes old; from 100.00, 105.00 fires and
    104.99 does not. *)
Theorem trigger_iff_threshold_and_cooldown :
  (∀ evs msg now reply rec previous,
      accepted msg = true →
      run agent_state evs !! ticker msg = Some rec →
      last_price rec = Some previous →
      trigger_fired (handle_stock_message (run agent_state evs) msg now reply).2 = true
      ↔ (PRICE_CHANGE_THRESHOLD_PERCENT
           <=? abs (change_percent (price msg) previous))%float = true
        ∧ (last_alert_time rec = None
           ∨ ∃ t, last_alert_time rec = Some t
                  ∧ (ALERT_COOLDOWN_SECONDS * 1000000 < now - t)%Z))
  ∧ (∀ now reply,
        trigger_fired
          (handle_stock_message
             (run agent_state [StockEvent (nvda_price 100) 0 Fails])
             (nvda_price 105) now reply).2 = true)
  ∧ (∀ now reply,
        trigger_fired
          (handle_stock_message
             (run agent_state [StockEvent (nvda_price 100) 0 Fails])
             (nvda_price 104.99) now reply).2 = false).
Proof.
  assert (∀ evs msg now reply rec previous,
    accepted msg = true →
    run agent_state evs !! ticker msg = Some rec →
    last_price rec = Some previous →
    trigger_fired (handle_stock_message (run agent_state evs) msg now reply).2
    = (PRICE_CHANGE_THRESHOLD_PERCENT
         <=? abs (change_percent (price msg) previous))%float
      && cooldown_elapsed now (last_alert_time rec)) as Hdec.
  { intros evs msg now reply rec previous Hacc Hrec Hprev.
    rewrite handle_stock_message_fired.
    apply stock_trigger_decision; try done.
    by eapply (prices_validated_run evs). }
  split; [|split].
  - intros evs msg now reply rec previous Hacc Hrec Hprev.
    rewrite (Hdec _ _ _ _ _ _ Hacc Hrec Hprev), andb_true_iff.
    by rewrite cooldown_elapsed_spec.
  - intros now reply.
    by rewrite (Hdec [StockEvent (nvda_price 100) 0 Fails] (nvda_price 105) now reply
              {| last_price := Some 100%float; recent_news_sentiments := [];
                 last_alert_time := None |} 100%float).
  - intros now reply.
    by rewrite (Hdec [StockEvent (nvda_price 100) 0 Fails] (nvda_price 104.99) now reply
              {| last_price := Some 100%float; recent_news_sentiments := [];
                 last_alert_time := None |} 100%float).
Qed.

(** ** The first price event of a ticker *)

Lemma stock_rejected st msg now :
  accepted msg = false →
  handle_stock_message_begin st msg now
  = Finished st [(INFO, ReceivedStock (ticker msg) (price msg));
                 (WARNING, SkippingInvalidStock msg)].
Proof.
  unfold accepted, handle_stock_message_begin. intros H%negb_false_iff.
  by rewrite H.
Qed.

(** A price event touches the record of its own ticker only. *)
Lemma stock_other_ticker st msg now t :
  ticker msg ≠ t →
  suspended_state (handle_stock_message_begin st msg now) !! t = st !! t.
Proof.
  intros Hne. unfold handle_stock_message_begin.
  destruct (_ || _); [done|].
  destruct (st !! ticker msg) as [rec|]; simpl;
    [|by rewrite lookup_insert_ne].
  destruct (last_price rec) as [lp|]; simpl; [|by rewrite lookup_insert_ne].
  destruct (0 <? lp)%float; simpl; [|by rewrite lookup_insert_ne].
  destruct (price_change _ _); simpl; [|by rewrite lookup_insert_ne].
  destruct (_ && _); simpl; [|by rewrite lookup_insert_ne].
  destruct proactive_insight_chain; simpl; by rewrite !lookup_insert_ne.
Qed.

Lemma unpriced_init t : unpriced t agent_state.
Proof.
  unfold unpriced, agent_state.
  destruct (decide (t = "NVDA"%string)) as [->|Hne].
  - by rewrite lookup_singleton_eq.
  - by rewrite lookup_singleton_ne.
Qed.

Lemma unpriced_news t st msg reply :
  unpriced t st → unpriced t (handle_news_message st msg reply).1.
Proof.
  intros Hst.
  destruct (handle_news_message_shape st msg reply) as [->|(rec & w & Hrec & ->)];
    [done|].
  unfold unpriced in *.
  destruct (decide (t = "NVDA"%string)) as [->|Hne].
  - rewrite lookup_insert_eq. by rewrite Hrec in Hst.
  - by rewrite lookup_insert_ne.
Qed.

Lemma never_priced_run t evs :
  never_priced t evs → unpriced t (run agent_state evs).
Proof.
  induction evs as [|ev evs IH] using rev_ind; intros Hnp.
  - apply unpriced_init.
  - apply Forall_app in Hnp as [Hevs Hev%Forall_inv].
    rewrite run_snoc. specialize (IH Hevs).
    destruct ev as [msg now reply|msg reply]; simpl.
    + rewrite handle_stock_message_state.
      destruct (accepted msg) eqn:Hacc.
      * unfold unpriced. by rewrite stock_other_ticker by auto.
      * by rewrite stock_rejected.
    + by apply unpriced_news.
Qed.

(** C3: the first price event seen for a ticker never fires the
    trigger, whatever its price: the handler records the price and
    returns after logging the initialisation or the first valid price,
    before any change is computed. *)
Theorem first_price_event_never_triggers evs msg now reply :
  never_priced (ticker msg) evs →
  let st := run agent_state evs in
  let result := handle_stock_message st msg now reply in
  trigger_fired result.2 = false
  ∧ (accepted msg = true →
     (∃ rec, result.1 !! ticker msg = Some rec
             ∧ last_price rec = Some (price msg)
             ∧ last_alert_time rec = None)
     ∧ handle_stock_message_begin st msg now = Finished result.1 result.2
     ∧ (result.2 = [(INFO, ReceivedStock (ticker msg) (price msg));
                    (INFO, InitializedState (ticker msg))]
        ∨ result.2 = [(INFO, ReceivedStock (ticker msg) (price msg));
                      (INFO, FirstValidPrice (ticker msg))])).
Proof.
  intros Hnp%never_priced_run. simpl.
  destruct (accepted msg) eqn:Hacc.
  - unfold handle_stock_message, handle_stock_message_begin.
    unfold accepted in Hacc. apply negb_true_iff in Hacc. rewrite Hacc.
    unfold unpriced in Hnp.
    destruct (run agent_state evs !! ticker msg) as [rec|] eqn:Hrec.
    + destruct Hnp as (_ & Hprice & Halert). rewrite Hprice. simpl.
      rewrite lookup_insert_eq. split; [done|]. intros _.
      split; [|split]; [|done|by right]. eexists. split; [done|]. done.
    + simpl. rewrite lookup_insert_eq. split; [done|]. intros _.
      split; [|split]; [|done|by left]. eexists. split; [done|]. done.
  - unfold handle_stock_message. rewrite stock_rejected by done. simpl.
    split; [done|]. discriminate.
Qed.

(** C7, amended: every identifier other than ["NVDA"] has no record
    before its first accepted price event, which creates one holding
    that price, an empty window and no alert time; ["NVDA"] has a
    record from the start, without price or alert time, and its first
    price event stores the price and keeps the window. *)
Theorem state_record_seeded_unless_nvda evs msg now reply :
  never_priced (ticker msg) evs →
  accepted msg = true →
  (ticker msg ≠ "NVDA"%string → seeded_by_first_price evs msg now reply)
  ∧ (ticker msg = "NVDA"%string →
     ∃ rec, run agent_state evs !! "NVDA" = Some rec
            ∧ last_price rec = None ∧ last_alert_time rec = None
            ∧ (handle_stock_message (run agent_state evs) msg now reply).1 !! "NVDA"
              = Some (set_last_price (price msg) rec)).
Proof.
  intros Hnp%never_priced_run Hacc.
  unfold seeded_by_first_price, handle_stock_message, handle_stock_message_begin.
  unfold accepted in Hacc. apply negb_true_iff in Hacc. rewrite Hacc.
  unfold unpriced in Hnp.
  destruct (run agent_state evs !! ticker msg) as [rec|] eqn:Hrec.
  - destruct Hnp as (HN & Hprice & Halert). split; [done|]. intros _.
    rewrite HN in Hrec |- *. exists rec. rewrite Hrec, Hprice. simpl.
    by rewrite lookup_insert_eq.
  - split; [|done]. intros _. simpl. by rewrite lookup_insert_eq.
Qed.

(** ** The alert time and the insight call *)

(** C4: when the trigger fires, the state the handler leaves when it
    issues the insight call already holds [now] as the last alert time,
    and the state after the handler is that state whatever the call
    answers, a failure or a success. *)
Theorem alert_time_set_before_insight st msg now reply :
  trigger_fired (handle_stock_message st msg now reply).2 = true →
  let at_call := handle_stock_message_begin st msg now in
  (∃ rec, suspended_state at_call !! ticker msg = Some rec
          ∧ last_alert_time rec = Some now)
  ∧ (∀ reply', (handle_stock_message st msg now reply').1 = suspended_state at_call)
  ∧ (∀ text, (handle_stock_message st msg now Fails).1
             = (handle_stock_message st msg now (Content text)).1).
Proof.
  rewrite handle_stock_message_fired. intros Hfired. simpl.
  split; [|split].
  - revert Hfired. unfold handle_stock_message_begin.
    destruct (_ || _); [done|].
    destruct (st !! ticker msg) as [rec|]; [|done].
    destruct (last_price rec) as [lp|]; [|done].
    destruct (0 <? lp)%float; [|done].
    destruct (price_change _ _); [|done].
    destruct (_ && _); [|done].
    destruct proactive_insight_chain; simpl; intros _;
      rewrite lookup_insert_eq; by eexists.
  - intros reply'. apply handle_stock_message_state.
  - intros text. by rewrite !handle_stock_message_state.
Qed.

(** ** Validation *)

Lemma news_rejected st msg reply :
  headline msg = ""%string →
  handle_news_message st msg reply
  = (st, [(INFO, ReceivedNews (headline msg)); (WARNING, SkippingInvalidNews msg)]).
Proof.
  intros H. unfold handle_news_message, handle_news_message_begin. by rewrite H.
Qed.

(** X2: a stock message with an empty ticker or a price that compares
    at most 0, and a news message with an empty headline, are dropped
    with a warning and leave the state as it is. *)
Theorem rejected_messages_dropped st :
  (∀ msg now reply,
      ticker msg = ""%string ∨ (price msg <=? 0)%float = true →
      (handle_stock_message st msg now reply).1 = st
      ∧ dropped_with_warning (handle_stock_message st msg now reply).2 = true)
  ∧ (∀ msg reply,
      headline msg = ""%string →
      (handle_news_message st msg reply).1 = st
      ∧ dropped_with_warning (handle_news_message st msg reply).2 = true).
Proof.
  split.
  - intros msg now reply H. unfold handle_stock_message.
    rewrite stock_rejected; [done|].
    unfold accepted. apply negb_false_iff, orb_true_iff.
    destruct H as [->|H]; [by left|by right].
  - intros msg reply H. by rewrite news_rejected.
Qed.

(** C8 at a price that is not a number: the price is not strictly
    greater than 0, yet the message is not dropped; it is stored as
    the last price of ["NVDA"] and no warning is logged. *)
Theorem nan_price_is_recorded now reply :
  let result := handle_stock_message agent_state (nvda_price nan) now reply in
  (0 <? price (nvda_price nan))%float = false
  ∧ result.1 !! "NVDA" = Some {| last_price := Some nan;
                                 recent_news_sentiments := [];
                                 last_alert_time := None |}
  ∧ result.1 ≠ agent_state
  ∧ dropped_with_warning result.2 = false.
Proof.
  simpl. split; [done|]. split; [done|]. split; [|done].
  intros Heq. apply (f_equal (λ st : state, st !! "NVDA")) in Heq.
  vm_compute in Heq. discriminate.
Qed.

(** ** The sort *)

Lemma py_bind_Returned {A B} (m : py_result A) (f : A → py_result B) b :
  m ≫= f = Returned b → ∃ a, m = Returned a ∧ f a = Returned b.
Proof. destruct m as [a|e]; [by exists a|discriminate]. Qed.

Lemma datetime_lt_Returned a b r :
  datetime_lt a b = Returned r →
  tz_aware a = tz_aware b ∧ r = (micros a <? micros b)%Z.
Proof.
  unfold datetime_lt. destruct (Bool.eqb _ _) eqn:Heq; [|discriminate].
  apply Bool.eqb_prop in Heq. by intros [= <-].
Qed.

Lemma datetime_lt_same a b :
  tz_aware a = tz_aware b →
  datetime_lt a b = Returned (micros a <? micros b)%Z.
Proof. unfold datetime_lt. intros ->. by rewrite Bool.eqb_reflx. Qed.

Lemma insert_desc_perm x l r :
  insert_desc x l = Returned r → Permutation r (x :: l).
Proof.
  revert r. induction l as [|y l IH]; simpl; intros r.
  - by intros [= <-].
  - intros (lt & Hlt & H)%py_bind_Returned. destruct lt.
    + apply py_bind_Returned in H as (r' & Hr' & [= <-]).
      rewrite (IH _ Hr'). apply perm_swap.
    + by injection H as <-.
Qed.

Lemma sort_desc_perm l s : sort_desc l = Returned s → Permutation s l.
Proof.
  revert s. induction l as [|x l IH]; simpl; intros s.
  - by intros [= <-].
  - intros (s' & Hs' & H)%py_bind_Returned.
    rewrite (insert_desc_perm _ _ _ H). by rewrite (IH _ Hs').
Qed.

(** The sort answers only on timestamps of one awareness. *)
Lemma sort_desc_Returned_uniform l s :
  sort_desc l = Returned s → ¬ mixed l.
Proof.
  revert s. induction l as [|x l IH]; simpl; intros s Hs.
  - intros (a & b & Ha & _). by apply elem_of_nil in Ha.
  - apply py_bind_Returned in Hs as (s' & Hs' & Hins).
    assert (∀ y, y ∈ l → tz_aware x.1 = tz_aware y.1) as Hx.
    { intros y Hy.
      destruct s' as [|z s'].
      - apply sort_desc_perm in Hs'. apply Permutation_nil in Hs'. subst l.
        by apply elem_of_nil in Hy.
      - simpl in Hins. apply py_bind_Returned in Hins as (lt & Hlt & _).
        apply datetime_lt_Returned in Hlt as [Hxz _].
        destruct (decide (tz_aware z.1 = tz_aware y.1)) as [Hzy|Hzy]; [congruence|].
        destruct (IH _ Hs'). exists z, y. split; [|done].
        rewrite <- (sort_desc_perm _ _ Hs'). left. }
    intros (a & b & Ha & Hb & Hab).
    apply elem_of_cons in Ha as [->|Ha], Hb as [->|Hb].
    + done.
    + by apply Hab, Hx.
    + by apply Hab; symmetry; apply Hx.
    + apply (IH _ Hs'). by exists a, b.
Qed.

Lemma sort_desc_mixed l : mixed l → ∃ e, sort_desc l = Raised e.
Proof.
  intros Hm. destruct (sort_desc l) as [s|e] eqn:Hs; [|by exists e].
  by destruct (sort_desc_Returned_uniform _ _ Hs).
Qed.

Lemma insert_desc_uniform b x l :
  tz_aware x.1 = b → uniform b l → Sorted desc l →
  ∃ r, insert_desc x l = Returned r ∧ Sorted desc r
       ∧ ∀ z, desc z x → HdRel desc z l → HdRel desc z r.
Proof.
  intros Hx Hl Hsorted. induction l as [|y l IH]; simpl.
  - exists [x]. split; [done|]. split; [by repeat constructor|].
    intros z Hz _. by constructor.
  - apply Forall_cons in Hl as [Hy Hl]. apply Sorted_inv in Hsorted as [Hsl Hhd].
    rewrite datetime_lt_same by congruence. simpl.
    destruct (micros x.1 <? micros y.1)%Z eqn:Hlt.
    + destruct (IH Hl Hsl) as (r & -> & Hr & Hrel). simpl.
      exists (y :: r). split; [done|]. split.
      * constructor; [done|]. apply Hrel; [|done].
        apply Z.ltb_lt in Hlt. unfold desc. lia.
      * intros z _ Hz. apply HdRel_inv in Hz. by constructor.
    + exists (x :: y :: l). split; [done|]. split.
      * constructor; [by constructor|]. constructor.
        apply Z.ltb_ge in Hlt. exact Hlt.
      * intros z Hz _. by constructor.
Qed.

Lemma uniform_perm b l l' : Permutation l l' → uniform b l → uniform b l'.
Proof. intros Hp. unfold uniform. by rewrite Hp. Qed.

Lemma sort_desc_uniform b l :
  uniform b l → ∃ s, sort_desc l = Returned s ∧ Sorted desc s.
Proof.
  induction l as [|x l IH]; simpl; intros Hl.
  - exists []. by split; [|constructor].
  - apply Forall_cons in Hl as [Hx Hl].
    destruct (IH Hl) as (s & Hs & Hsorted). rewrite Hs. simpl.
    destruct (insert_desc_uniform b x s Hx) as (r & Hr & Hrs & _); [|done|by exists r].
    apply (uniform_perm b l); [|done]. symmetry. by apply sort_desc_perm.
Qed.

Lemma Sorted_sorted_desc l : Sorted desc l → sorted_desc l.
Proof.
  induction 1 as [|x l Hl IH Hhd]; intros i a b Ha Hb.
  - by rewrite lookup_nil in Ha.
  - destruct i as [|i]; simpl in *.
    + injection Ha as <-. destruct l as [|y l]; [done|].
      injection Hb as <-. by apply HdRel_inv in Hhd.
    + by eapply IH.
Qed.

Lemma sorted_desc_take n l : sorted_desc l → sorted_desc (take n l).
Proof.
  intros Hl i a b Ha Hb.
  apply lookup_take_Some in Ha as [Ha _], Hb as [Hb _]. by eapply Hl.
Qed.

(** ** The sentiment helper *)

Ltac in_list :=
  repeat first [apply list_elem_of_here | apply list_elem_of_further].

Lemma extract_sentiment_tag content :
  (extract_sentiment content).1 ∈ valid_sentiments ++ ["UNKNOWN"%string].
Proof.
  unfold extract_sentiment. cbn [fst]. apply elem_of_app.
  destruct (find (λ valid, mem valid _) valid_sentiments) as [valid|] eqn:Hword.
  { left. apply list_elem_of_In. by apply find_some in Hword as [? _]. }
  destruct (find (λ valid, contains valid _) valid_sentiments) as [valid|] eqn:Hpart.
  { left. apply list_elem_of_In. by apply find_some in Hpart as [? _]. }
  right. apply list_elem_of_here.
Qed.

Lemma analyze_news_sentiment_resume_Content headline text :
  analyze_news_sentiment_resume headline (Content text)
  = (Returned (extract_sentiment text).1, (extract_sentiment text).2).
Proof.
  unfold analyze_news_sentiment_resume, try_except, ainvoke, mbind, py_bind.
  by destruct (extract_sentiment text).
Qed.

Lemma analyze_news_sentiment_resume_tag headline reply :
  ∃ tag, (analyze_news_sentiment_resume headline reply).1 = Returned tag
         ∧ tag ∈ sentiment_tags.
Proof.
  destruct reply as [text|].
  - rewrite analyze_news_sentiment_resume_Content. cbn [fst].
    eexists. split; [done|]. unfold sentiment_tags. apply elem_of_app.
    destruct (proj1 (elem_of_app _ _ _) (extract_sentiment_tag text))
      as [Htag|Htag%list_elem_of_singleton]; [by left|].
    right. rewrite Htag. apply list_elem_of_here.
  - eexists. split; [done|]. unfold sentiment_tags, valid_sentiments. in_list.
Qed.

Lemma persists_valid tag :
  tag ∈ sentiment_tags → persists tag = bool_decide (tag ∈ valid_sentiments).
Proof.
  unfold sentiment_tags, valid_sentiments. intros H.
  repeat (apply elem_of_cons in H as [->|H]; [by vm_compute|]).
  by apply elem_of_nil in H.
Qed.

Lemma analyze_news_sentiment_tag headline reply :
  ∃ tag, (analyze_news_sentiment headline reply).1 = Returned tag
         ∧ tag ∈ sentiment_tags.
Proof.
  unfold analyze_news_sentiment. destruct news_sentiment_chain; simpl.
  - apply analyze_news_sentiment_resume_tag.
  - eexists. split; [done|]. unfold sentiment_tags, valid_sentiments. in_list.
Qed.

(** C9: the sentiment helper raises nothing to its caller; for every
    headline and every outcome of the chain it returns one of POSITIVE,
    NEGATIVE, NEUTRAL, UNKNOWN, ERROR_LLM_UNAVAILABLE and
    ERROR_API_CALL, and the caller's test on the value keeps exactly
    the first three. *)
Theorem analyze_news_sentiment_returns_tag headline reply :
  ∃ tag, (analyze_news_sentiment headline reply).1 = Returned tag
         ∧ tag ∈ sentiment_tags
         ∧ persists tag = bool_decide (tag ∈ valid_sentiments).
Proof.
  destruct (analyze_news_sentiment_tag headline reply) as (tag & Htag & Hin).
  exists tag. split; [done|]. split; [done|]. by apply persists_valid.
Qed.

(** ** The news handler *)

Lemma handle_news_message_unfold st msg reply :
  headline msg ≠ ""%string →
  handle_news_message st msg reply
  = let '(st', log) :=
      handle_news_message_continue st msg
        (analyze_news_sentiment (headline msg) reply) in
    (st', (INFO, ReceivedNews (headline msg)) :: log).
Proof.
  intros Hh%String.eqb_neq.
  unfold handle_news_message, handle_news_message_begin, handle_news_message_resume,
    analyze_news_sentiment.
  rewrite Hh. destruct news_sentiment_chain; cbn [negb];
    by destruct (handle_news_message_continue st msg _).
Qed.

(** The state after the handler, by the value the helper returned. *)
Lemma handle_news_message_state st msg reply tag :
  headline msg ≠ ""%string →
  (analyze_news_sentiment (headline msg) reply).1 = Returned tag →
  (handle_news_message st msg reply).1
  = match st !! "NVDA" with
    | Some rec =>
        if persists tag
        then
          let sentiments := recent_news_sentiments rec ++ [(timestamp msg, tag)] in
          <["NVDA" :=
              set_recent_news_sentiments
                (match sort_desc sentiments with
                 | Returned sorted => take MAX_NEWS_HISTORY sorted
                 | Raised _ => sort_residue sentiments
                 end) rec]> st
        else st
    | None => st
    end.
Proof.
  intros Hh Htag. rewrite handle_news_message_unfold by done.
  destruct (analyze_news_sentiment (headline msg) reply) as [outcome log].
  simpl in Htag. subst outcome. unfold handle_news_message_continue, persists.
  destruct (st !! "NVDA") as [rec|]; [|done].
  destruct (_ && _); [|done].
  by destruct (sort_desc _).
Qed.

(** C10: a news event leaves every last price and every last alert
    time as they are, creates no key, and changes the record of no
    ticker other than ["NVDA"]. *)
Theorem news_event_frame st msg reply :
  let st' := (handle_news_message st msg reply).1 in
  dom st' = dom st
  ∧ (∀ t, last_price <$> st' !! t = last_price <$> st !! t)
  ∧ (∀ t, last_alert_time <$> st' !! t = last_alert_time <$> st !! t)
  ∧ (∀ t, t ≠ "NVDA"%string → st' !! t = st !! t).
Proof.
  simpl.
  destruct (handle_news_message_shape st msg reply) as [->|(rec & w & Hrec & ->)];
    [done|].
  split; [|split; [|split]].
  - rewrite dom_insert_L. apply subseteq_union_1_L, singleton_subseteq_l.
    by eapply elem_of_dom_2.
  - intros t. destruct (decide (t = "NVDA"%string)) as [->|Hne].
    + by rewrite lookup_insert_eq, Hrec.
    + by rewrite lookup_insert_ne.
  - intros t. destruct (decide (t = "NVDA"%string)) as [->|Hne].
    + by rewrite lookup_insert_eq, Hrec.
    + by rewrite lookup_insert_ne.
  - intros t Hne. by rewrite lookup_insert_ne.
Qed.

(** C5: a helper outcome of UNKNOWN or of one of the two error values
    changes nothing in the state, and the events after it are
    processed as if the event had not been there; whatever a news event
    adds to a window is the message's timestamp with the POSITIVE,
    NEGATIVE or NEUTRAL the helper returned. *)
Theorem only_classified_sentiments_persist st msg reply :
  let outcome := (analyze_news_sentiment (headline msg) reply).1 in
  let st' := (handle_news_message st msg reply).1 in
  (outcome ∈ [Returned "UNKNOWN"; Returned "ERROR_LLM_UNAVAILABLE";
              Returned "ERROR_API_CALL"]%string →
   st' = st ∧ ∀ evs, run st (NewsEvent msg reply :: evs) = run st evs)
  ∧ (∀ t rec' e,
        st' !! t = Some rec' → e ∈ recent_news_sentiments rec' →
        (∃ rec, st !! t = Some rec ∧ e ∈ recent_news_sentiments rec)
        ∨ (t = "NVDA"%string ∧ e.2 ∈ valid_sentiments
           ∧ outcome = Returned e.2 ∧ e.1 = timestamp msg)).
Proof.
  simpl.
  destruct (decide (headline msg = ""%string)) as [Hempty|Hh].
  { assert ((handle_news_message st msg reply).1 = st) as Hst
      by by rewrite news_rejected.
    split.
    - intros _. split; [done|]. intros evs. simpl. by rewrite Hst.
    - intros t rec' e Hl He. rewrite Hst in Hl. left. by exists rec'. }
  destruct (analyze_news_sentiment_tag (headline msg) reply)
    as (tag & Htag & Hin).
  pose proof (persists_valid _ Hin) as Hpersists.
  rewrite (handle_news_message_state st msg reply tag Hh Htag), Htag, Hpersists.
  split.
  - intros Hfail.
    assert (tag ∉ valid_sentiments) as Hnot.
    { unfold valid_sentiments. intros Hv.
      repeat (apply elem_of_cons in Hfail as [[= ->]|Hfail];
              [by repeat (apply elem_of_cons in Hv as [?|Hv]; [done|]);
                  apply elem_of_nil in Hv|]).
      by apply elem_of_nil in Hfail. }
    rewrite bool_decide_eq_false_2 by done.
    assert (match st !! "NVDA" with Some _ | None => st end = st) as Hst
      by by destruct (st !! "NVDA").
    by rewrite Hst.
  - intros t rec' e Hl He.
    destruct (st !! "NVDA") as [rec|] eqn:Hrec; [|left; by exists rec'].
    case_bool_decide as Hvalid; [|left; by exists rec'].
    destruct (decide (t = "NVDA"%string)) as [->|Hne];
      [|rewrite lookup_insert_ne in Hl by done; left; by exists rec'].
    rewrite lookup_insert_eq in Hl. injection Hl as <-. simpl in He.
    assert (e ∈ recent_news_sentiments rec ++ [(timestamp msg, tag)]) as Hin'.
    { destruct (sort_desc _) as [sorted|err] eqn:Hsort.
      - apply elem_of_take in He as (i & He & _).
        apply list_elem_of_lookup_2 in He.
        by rewrite (sort_desc_perm _ _ Hsort) in He.
      - by rewrite sort_residue_perm in He. }
    apply elem_of_app in Hin' as [Hold|Hnew%list_elem_of_singleton].
    + left. by exists rec.
    + right. by subst e.
Qed.

(** ** The sentiment window *)

Lemma nvda_window_news st msg reply tag w :
  nvda_window st = Some w →
  headline msg ≠ ""%string →
  (analyze_news_sentiment (headline msg) reply).1 = Returned tag →
  persists tag = true →
  nvda_window (handle_news_message st msg reply).1
  = Some (window_after w msg tag).
Proof.
  unfold nvda_window. intros Hw Hh Htag Hp.
  rewrite (handle_news_message_state st msg reply tag Hh Htag), Hp.
  destruct (st !! "NVDA") as [rec|]; [|done].
  injection Hw as <-. by rewrite lookup_insert_eq.
Qed.

(** Once the window is mixed the sort raises on every insert: the
    entry stays appended, nothing is cut off, and the window stays
    mixed. *)
Lemma window_after_mixed (w : list sentiment_entry) msg tag :
  mixed (w ++ [(timestamp msg, tag)]) →
  length (window_after w msg tag) = S (length w)
  ∧ mixed (window_after w msg tag).
Proof.
  intros Hm. unfold window_after. cbv zeta.
  destruct (sort_desc _) as [s|e] eqn:Hs;
    [by destruct (sort_desc_Returned_uniform _ _ Hs)|].
  split.
  - by rewrite (Permutation_length (sort_residue_perm _)), length_app, Nat.add_1_r.
  - destruct Hm as (a & b & Ha & Hb & Hab). exists a, b.
    by rewrite !sort_residue_perm.
Qed.

Lemma mixed_app_l (w : list sentiment_entry) e : mixed w → mixed (w ++ [e]).
Proof.
  intros (a & b & Ha & Hb & Hab). exists a, b.
  rewrite !elem_of_app. auto.
Qed.

Lemma analyze_classified h tag :
  news_sentiment_chain = true →
  tag ∈ valid_sentiments →
  (analyze_news_sentiment h (Content tag)).1 = Returned tag.
Proof.
  intros Hchain Htag. unfold analyze_news_sentiment. rewrite Hchain.
  cbn [negb]. rewrite analyze_news_sentiment_resume_Content. cbn [fst].
  unfold valid_sentiments in Htag.
  repeat (apply elem_of_cons in Htag as [->|Htag]; [by vm_compute|]).
  by apply elem_of_nil in Htag.
Qed.

(** C2 on timestamps of both kinds: after one headline with a naive
    timestamp and three with aware ones the window of ["NVDA"] holds
    four entries, one more than [MAX_NEWS_HISTORY]. *)
Theorem window_bound_broken_by_mixed_timestamps :
  news_sentiment_chain = true →
  ∃ w, nvda_window (run agent_state mixed_timestamps) = Some w
       ∧ length w = 4
       ∧ ¬ window_ok w.
Proof.
  intros Hchain.
  assert (∀ tag, tag ∈ valid_sentiments → persists tag = true) as Hp.
  { intros tag Htag. rewrite persists_valid; [by apply bool_decide_eq_true_2|].
    unfold sentiment_tags. apply elem_of_app. by left. }
  assert ("POSITIVE"%string ∈ valid_sentiments) as Hpos by in_list.
  assert ("NEGATIVE"%string ∈ valid_sentiments) as Hneg by in_list.
  assert ("NEUTRAL"%string ∈ valid_sentiments) as Hneu by in_list.
  set (m1 := headline_at (naive 1)). set (m2 := headline_at (aware 2)).
  set (m3 := headline_at (aware 3)). set (m4 := headline_at (aware 4)).
  set (w1 := window_after [] m1 "POSITIVE").
  set (w2 := window_after w1 m2 "NEGATIVE").
  set (w3 := window_after w2 m3 "NEUTRAL").
  set (w4 := window_after w3 m4 "POSITIVE").
  assert (w1 = [(naive 1, "POSITIVE"%string)]) as Hw1 by done.
  assert (mixed (w1 ++ [(timestamp m2, "NEGATIVE"%string)])) as Hm2.
  { rewrite Hw1. exists (naive 1, "POSITIVE"%string), (aware 2, "NEGATIVE"%string).
    split; [in_list|]. split; [in_list|done]. }
  destruct (window_after_mixed _ _ _ Hm2) as [Hl2 Hmixed2].
  destruct (window_after_mixed w2 m3 "NEUTRAL" (mixed_app_l _ _ Hmixed2))
    as [Hl3 Hmixed3].
  destruct (window_after_mixed w3 m4 "POSITIVE" (mixed_app_l _ _ Hmixed3))
    as [Hl4 _].
  change (length w2 = S (length w1)) in Hl2.
  change (length w3 = S (length w2)) in Hl3.
  change (length w4 = S (length w3)) in Hl4.
  assert (length w1 = 1) as Hl1 by by rewrite Hw1.
  exists w4. split; [|split].
  - unfold mixed_timestamps, run. simpl.
    rewrite (nvda_window_news _ m4 _ "POSITIVE" w3); auto using analyze_classified.
    rewrite (nvda_window_news _ m3 _ "NEUTRAL" w2); auto using analyze_classified.
    rewrite (nvda_window_news _ m2 _ "NEGATIVE" w1); auto using analyze_classified.
    rewrite (nvda_window_news _ m1 _ "POSITIVE" []); auto using analyze_classified.
  - lia.
  - intros [Hlen _]. unfold MAX_NEWS_HISTORY in Hlen. lia.
Qed.

(** A price event keeps every window, and starts a new record with an
    empty one. *)
Lemma stock_window st msg now t rec' :
  suspended_state (handle_stock_message_begin st msg now) !! t = Some rec' →
  recent_news_sentiments rec' = []
  ∨ ∃ rec, st !! t = Some rec
           ∧ recent_news_sentiments rec' = recent_news_sentiments rec.
Proof.
  destruct (decide (ticker msg = t)) as [<-|Hne];
    [|rewrite stock_other_ticker by done; by right; exists rec'].
  unfold handle_stock_message_begin.
  destruct (_ || _); [by right; exists rec'|].
  destruct (st !! ticker msg) as [rec|]; simpl;
    [|rewrite lookup_insert_eq; intros [= <-]; by left].
  assert (∀ r, r = set_last_price (price msg) rec
               ∨ r = set_last_alert_time now (set_last_price (price msg) rec) →
               recent_news_sentiments r = recent_news_sentiments rec) as Hsame.
  { by intros r [->| ->]. }
  destruct (last_price rec) as [lp|]; simpl;
    [|rewrite lookup_insert_eq; intros [= <-]; right; exists rec; auto].
  destruct (0 <? lp)%float; simpl;
    [|rewrite lookup_insert_eq; intros [= <-]; right; exists rec; auto].
  destruct (price_change _ _); simpl;
    [|rewrite lookup_insert_eq; intros [= <-]; right; exists rec; auto].
  destruct (_ && _); simpl;
    [|rewrite lookup_insert_eq; intros [= <-]; right; exists rec; auto].
  destruct proactive_insight_chain; simpl;
    rewrite lookup_insert_eq; intros [= <-]; right; exists rec; auto.
Qed.

Lemma window_after_uniform b (w : list sentiment_entry) msg tag :
  uniform b w → tz_aware (timestamp msg) = b →
  window_ok (window_after w msg tag) ∧ uniform b (window_after w msg tag).
Proof.
  intros Hw Hmsg. unfold window_after. cbv zeta.
  assert (uniform b (w ++ [(timestamp msg, tag)])) as Hall.
  { apply Forall_app. split; [done|]. by constructor. }
  destruct (sort_desc_uniform b _ Hall) as (s & Hs & Hsorted).
  pose proof (sort_desc_perm _ _ Hs) as Hperm.
  replace (sort_desc (w ++ [(timestamp msg, tag)])) with (Returned s).
  split; [split|].
  - rewrite length_take. unfold MAX_NEWS_HISTORY. lia.
  - by apply sorted_desc_take, Sorted_sorted_desc.
  - apply Forall_take. by apply (uniform_perm b (w ++ [(timestamp msg, tag)])).
Qed.

Lemma window_ok_nil : window_ok [].
Proof.
  split; [unfold MAX_NEWS_HISTORY; simpl; lia|].
  intros i a b Ha. by rewrite lookup_nil in Ha.
Qed.

Lemma windows_kept_news b st msg reply :
  tz_aware (timestamp msg) = b →
  windows_kept b st → windows_kept b (handle_news_message st msg reply).1.
Proof.
  intros Hmsg Hst.
  destruct (decide (headline msg = ""%string)) as [Hempty|Hh].
  { by rewrite news_rejected. }
  destruct (analyze_news_sentiment_tag (headline msg) reply)
    as (tag & Htag & _).
  rewrite (handle_news_message_state st msg reply tag Hh Htag).
  destruct (st !! "NVDA") as [rec|] eqn:Hrec; [|done].
  destruct (persists tag); [|done].
  intros t rec' Hl.
  destruct (decide (t = "NVDA"%string)) as [->|Hne].
  - rewrite lookup_insert_eq in Hl. injection Hl as <-.
    apply (window_after_uniform b (recent_news_sentiments rec) msg tag); [|done].
    by apply (Hst "NVDA"%string).
  - rewrite lookup_insert_ne in Hl by done. by apply (Hst t).
Qed.

Lemma windows_kept_stock b st msg now :
  windows_kept b st →
  windows_kept b (suspended_state (handle_stock_message_begin st msg now)).
Proof.
  intros Hst t rec' Hl.
  destruct (stock_window _ _ _ _ _ Hl) as [->|(rec & Hrec & ->)].
  - split; [apply window_ok_nil|constructor].
  - by apply (Hst t).
Qed.

(** While all news timestamps are of one awareness, every window
    stays within [MAX_NEWS_HISTORY] entries and in descending order. *)
Lemma windows_kept_run b evs :
  news_uniform b evs → windows_kept b (run agent_state evs).
Proof.
  induction evs as [|ev evs IH] using rev_ind; intros Hevs.
  - intros t rec Hl. change (agent_state !! t = Some rec) in Hl.
    unfold agent_state in Hl. apply lookup_singleton_Some in Hl as [_ <-].
    split; [apply window_ok_nil|constructor].
  - apply Forall_app in Hevs as [Hevs Hev%Forall_inv].
    rewrite run_snoc. destruct ev as [msg now reply|msg reply]; simpl.
    + rewrite handle_stock_message_state. by apply windows_kept_stock, IH.
    + by apply windows_kept_news, IH.
Qed.

(** ** Two handlers on one event loop *)

(** A step of a task either does all of what was pending, or leaves
    the state and what is pending as they were. *)
Lemma step_task_pending st t :
  ((step_task st t).1 = pending t st ∧ ∀ s, pending (step_task st t).2 s = s)
  ∨ ((step_task st t).1 = st
     ∧ ∀ s, pending (step_task st t).2 s = pending t s).
Proof.
  destruct t as [msg now reply|reply|msg reply|msg reply|]; simpl;
    [| by left | | by left | by left].
  - left. rewrite handle_stock_message_state.
    by destruct (handle_stock_message_begin st msg now).
  - unfold handle_news_message, handle_news_message_begin.
    destruct (String.eqb (headline msg) ""); [by left|].
    destruct (negb news_sentiment_chain).
    + left. by destruct (handle_news_message_continue st msg _).
    + right. split; [done|]. intros s. simpl.
      by destruct (handle_news_message_resume s msg reply).
Qed.

Lemma linearized_step st0 P Q sys p :
  linearized st0 P Q sys → linearized st0 P Q (step sys p).
Proof.
  unfold linearized. destruct sys as [st ts tn]. simpl.
  intros Hinv. destruct p; simpl.
  - pose proof (step_task_pending st ts) as Hstep.
    destruct (step_task st ts) as [st' ts']. simpl in *.
    destruct Hstep as [[-> Hdone]|[-> Hsame]];
      destruct Hinv as [(-> & Hs & Hn)|[(-> & Hs & Hn)|[(-> & Hs & Hn)|(Hst & Hs & Hn)]]].
    + right; left. by rewrite Hs.
    + right; left. by rewrite Hs.
    + right; right; right. rewrite Hs. split; [by right|done].
    + right; right; right. by rewrite Hs.
    + left. split; [done|]. split; [|done]. intros s. by rewrite Hsame.
    + right; left. split; [done|]. split; [|done]. intros s. by rewrite Hsame.
    + right; right; left. split; [done|]. split; [|done]. intros s. by rewrite Hsame.
    + right; right; right. split; [done|]. split; [|done]. intros s. by rewrite Hsame.
  - pose proof (step_task_pending st tn) as Hstep.
    destruct (step_task st tn) as [st' tn']. simpl in *.
    destruct Hstep as [[-> Hdone]|[-> Hsame]];
      destruct Hinv as [(-> & Hs & Hn)|[(-> & Hs & Hn)|[(-> & Hs & Hn)|(Hst & Hs & Hn)]]].
    + right; right; left. by rewrite Hn.
    + right; right; right. rewrite Hn. split; [by left|done].
    + right; right; left. by rewrite Hn.
    + right; right; right. by rewrite Hn.
    + left. split; [done|]. split; [done|]. intros s. by rewrite Hsame.
    + right; left. split; [done|]. split; [done|]. intros s. by rewrite Hsame.
    + right; right; left. split; [done|]. split; [done|]. intros s. by rewrite Hsame.
    + right; right; right. split; [done|]. split; [done|]. intros s. by rewrite Hsame.
Qed.

Lemma linearized_interleave st0 P Q schedule sys :
  linearized st0 P Q sys → linearized st0 P Q (interleave schedule sys).
Proof.
  revert sys. induction schedule as [|p schedule IH]; intros sys Hinv; [done|].
  simpl. by apply IH, linearized_step.
Qed.

(** C6: a price event and a news event handled at the same time, the
    event loop switching between the two handlers in any order, leave
    the state that handling one after the other leaves, in one of the
    two orders. *)
Theorem concurrent_events_linearize st smsg now sreply nmsg nreply schedule :
  let final :=
    interleave schedule
      {| sys_state := st;
         sys_stock := StockTask smsg now sreply;
         sys_news := NewsTask nmsg nreply |} in
  sys_stock final = TaskDone →
  sys_news final = TaskDone →
  sys_state final = run st [StockEvent smsg now sreply; NewsEvent nmsg nreply]
  ∨ sys_state final = run st [NewsEvent nmsg nreply; StockEvent smsg now sreply].
Proof.
  simpl.
  set (P := pending (StockTask smsg now sreply)).
  set (Q := pending (NewsTask nmsg nreply)).
  set (sys0 := {| sys_state := st; sys_stock := _; sys_news := _ |}).
  assert (linearized st P Q sys0) as Hinv by by left.
  apply (linearized_interleave _ _ _ schedule) in Hinv.
  intros Hs Hn. unfold linearized in Hinv. rewrite Hs, Hn in Hinv. simpl in Hinv.
  change (sys_state (interleave schedule sys0) = Q (P st)
          ∨ sys_state (interleave schedule sys0) = P (Q st)).
  destruct Hinv as [(-> & HP & HQ)|[(-> & HP & HQ)|[(-> & HP & HQ)|(Hst & _)]]].
  - left. by rewrite <- HP, <- HQ.
  - left. by rewrite <- HQ.
  - right. by rewrite <- HP.
  - done.
Qed.

(** X1: while the news timestamps are all naive or all aware, the window
    of every ticker holds at most [MAX_NEWS_HISTORY] entries, in
    descending order of timestamp, after every sequence of events. *)
Theorem window_kept_on_uniform_timestamps b evs t rec :
  news_uniform b evs →
  run agent_state evs !! t = Some rec →
  length (recent_news_sentiments rec) ≤ MAX_NEWS_HISTORY
  ∧ sorted_desc (recent_news_sentiments rec).
Proof.
  intros Hevs Hrec.
  destruct (windows_kept_run b evs Hevs t rec Hrec) as [[Hlen Hsorted] _].
  by split.
Qed.

(** ** Further properties of the price handler *)

(** The price handler, when it accepts a message, replaces the record
    of the message's ticker by [record_after_price]; it fires only on a
    ticker that has a record. *)
Lemma stock_effect st msg now :
  accepted msg = true →
  let s := handle_stock_message_begin st msg now in
  suspended_state s
  = <[ticker msg := record_after_price (st !! ticker msg) (price msg) now
                      (trigger_fired (suspended_log s))]> st
  ∧ (trigger_fired (suspended_log s) = true → is_Some (st !! ticker msg)).
Proof.
  intros Hacc. unfold accepted in Hacc. apply negb_true_iff in Hacc.
  unfold handle_stock_message_begin. rewrite Hacc.
  destruct (st !! ticker msg) as [rec|] eqn:Hrec; [|done].
  destruct (last_price rec) as [lp|]; [|done].
  destruct (0 <? lp)%float; [|done].
  destruct (price_change _ _); [|done].
  destruct (_ && _); [|done].
  destruct proactive_insight_chain; simpl; by rewrite insert_insert_eq.
Qed.

Lemma stock_fired_accepted st msg now :
  trigger_fired (suspended_log (handle_stock_message_begin st msg now)) = true →
  accepted msg = true.
Proof.
  destruct (accepted msg) eqn:Hacc; [done|]. by rewrite stock_rejected.
Qed.

Lemma stock_record_kept st msg now t rec :
  st !! t = Some rec →
  ∃ rec', suspended_state (handle_stock_message_begin st msg now) !! t = Some rec'
          ∧ recent_news_sentiments rec' = recent_news_sentiments rec.
Proof.
  intros Hrec. destruct (accepted msg) eqn:Hacc.
  - destruct (stock_effect st msg now Hacc) as [-> _].
    destruct (decide (t = ticker msg)) as [->|Hne].
    + rewrite lookup_insert_eq, Hrec. eexists. split; [done|].
      simpl. by destruct (trigger_fired _).
    + rewrite lookup_insert_ne by done. by exists rec.
  - rewrite stock_rejected by done. by exists rec.
Qed.

(** X3: a price event leaves every sentiment window and every other
    ticker's record as they were, removes no record, and when it is
    accepted its price becomes the ticker's last price whether or not
    the trigger fires. *)
Theorem stock_event_frame st msg now reply :
  let st' := (handle_stock_message st msg now reply).1 in
  (∀ t, t ≠ ticker msg → st' !! t = st !! t)
  ∧ (∀ t rec, st !! t = Some rec →
       ∃ rec', st' !! t = Some rec'
               ∧ recent_news_sentiments rec' = recent_news_sentiments rec)
  ∧ (accepted msg = true →
       ∃ rec', st' !! ticker msg = Some rec' ∧ last_price rec' = Some (price msg)).
Proof.
  simpl. rewrite handle_stock_message_state.
  split; [|split].
  - intros t Hne. by apply stock_other_ticker.
  - intros t rec Hrec. by apply stock_record_kept.
  - intros Hacc. destruct (stock_effect st msg now Hacc) as [-> _].
    rewrite lookup_insert_eq. eexists. split; [done|].
    unfold record_after_price. destruct (st !! ticker msg); [|done].
    by destruct (trigger_fired _).
Qed.

(** X4: the catch-all of the price handler is never entered: no state,
    message or clock makes the handler log an unhandled error, the
    division being guarded by [last_price > 0]. *)
Theorem stock_handler_never_fails st msg now reply :
  (ERROR, UnhandledStockError) ∉ (handle_stock_message st msg now reply).2.
Proof.
  assert (∀ l : list log_record,
    (ERROR, UnhandledStockError) ∉ l →
    (ERROR, UnhandledStockError) ∉ l ++ handle_stock_message_resume reply) as Hres.
  { intros l Hl [H|H]%elem_of_app; [done|].
    destruct reply; simpl in H; apply elem_of_cons in H as [[=]|H];
      by apply elem_of_nil in H. }
  assert (∀ a b : log_record, a ≠ (ERROR, UnhandledStockError) →
    b ≠ (ERROR, UnhandledStockError) → (ERROR, UnhandledStockError) ∉ [a; b]) as H2.
  { intros a b Ha Hb H. apply elem_of_cons in H as [H|H]; [done|].
    apply elem_of_cons in H as [H|H]; [done|]. by apply elem_of_nil in H. }
  unfold handle_stock_message, handle_stock_message_begin.
  destruct (_ || _); [by apply H2|].
  destruct (st !! ticker msg) as [rec|]; [|by apply H2].
  destruct (last_price rec) as [lp|]; [|by apply H2].
  destruct (0 <? lp)%float eqn:Hpos; [|by apply H2].
  rewrite (price_change_positive _ _ Hpos).
  destruct (_ && _); [|by apply H2].
  destruct proactive_insight_chain; simpl.
  - apply (Hres [_; _; _; _]). intros H.
    repeat (apply elem_of_cons in H as [[=]|H]). by apply elem_of_nil in H.
  - intros H. repeat (apply elem_of_cons in H as [[=]|H]). by apply elem_of_nil in H.
Qed.

Lemma stock_fired_cooldown st msg now rec :
  st !! ticker msg = Some rec →
  trigger_fired (suspended_log (handle_stock_message_begin st msg now)) = true →
  cooldown_elapsed now (last_alert_time rec) = true.
Proof.
  intros Hrec. unfold handle_stock_message_begin.
  destruct (_ || _); [done|]. rewrite Hrec.
  destruct (last_price rec) as [lp|]; [|done].
  destruct (0 <? lp)%float; [|done].
  destruct (price_change _ _); [|done]. simpl.
  destruct (_ <=? _)%float; [|done]. simpl.
  by destruct (cooldown_elapsed _ _).
Qed.

(** A news event keeps the last price and the last alert time of every
    ticker. *)
Lemma news_keeps_price_and_alert st msg reply t :
  (λ r, (last_price r, last_alert_time r)) <$> (handle_news_message st msg reply).1 !! t
  = (λ r, (last_price r, last_alert_time r)) <$> st !! t.
Proof.
  destruct (handle_news_message_shape st msg reply) as [->|(rec & w & Hrec & ->)];
    [done|].
  destruct (decide (t = "NVDA"%string)) as [->|Hne].
  - by rewrite lookup_insert_eq, Hrec.
  - by rewrite lookup_insert_ne.
Qed.

Lemma run_news_keeps_price_and_alert st news t :
  Forall is_news news →
  (λ r, (last_price r, last_alert_time r)) <$> run st news !! t
  = (λ r, (last_price r, last_alert_time r)) <$> st !! t.
Proof.
  induction news as [|ev news IH] using rev_ind; intros Hnews; [done|].
  apply Forall_app in Hnews as [Hnews Hev%Forall_inv].
  rewrite run_snoc. destruct ev as [|msg reply]; [done|]. simpl.
  by rewrite news_keeps_price_and_alert, IH.
Qed.

(** X5: after the trigger fired on a price [p1] at clock [now1], and
    any news events since, the next accepted price [p2] of the ticker
    at clock [now2] fires exactly when its change against [p1] reaches
    the threshold and [now2] is more than 600 seconds after [now1]. *)
Theorem cooldown_enforced st msg1 now1 reply1 news msg2 now2 reply2 :
  trigger_fired (handle_stock_message st msg1 now1 reply1).2 = true →
  Forall is_news news →
  ticker msg2 = ticker msg1 →
  accepted msg2 = true →
  trigger_fired
    (handle_stock_message
       (run (handle_stock_message st msg1 now1 reply1).1 news) msg2 now2 reply2).2
  = (PRICE_CHANGE_THRESHOLD_PERCENT
       <=? abs (change_percent (price msg2) (price msg1)))%float
    && (ALERT_COOLDOWN_SECONDS * 1000000 <? now2 - now1)%Z.
Proof.
  rewrite !handle_stock_message_fired, handle_stock_message_state.
  intros Hfired Hnews Hticker Hacc2.
  pose proof (stock_fired_accepted _ _ _ Hfired) as Hacc1.
  destruct (stock_effect st msg1 now1 Hacc1) as [Hst1 Hsome].
  destruct (Hsome Hfired) as [rec Hrec].
  pose proof (run_news_keeps_price_and_alert
                (suspended_state (handle_stock_message_begin st msg1 now1))
                news (ticker msg1) Hnews) as Hkeep.
  rewrite Hst1 in Hkeep at 2. rewrite lookup_insert_eq, Hrec, Hfired in Hkeep.
  destruct (run _ news !! ticker msg1) as [rec2|] eqn:Hrec2; [|done].
  injection Hkeep as Hprice Halert.
  rewrite (stock_trigger_decision _ msg2 now2 rec2 (price msg1)), Halert; try done.
  - by rewrite Hticker.
  - unfold accepted in Hacc1. by apply negb_true_iff, orb_false_iff in Hacc1 as [_ ?].
Qed.

(** X6: no event moves the last alert time of a ticker except a price
    event of that ticker that fires; it then becomes that event's clock
    reading, which is more than 600 seconds after the previous alert
    time if there was one. An alert time is never cleared. *)
Theorem alert_time_moves_only_past_cooldown st ev t rec rec' :
  st !! t = Some rec →
  (process st ev).1 !! t = Some rec' →
  last_alert_time rec' = last_alert_time rec
  ∨ ∃ msg now reply,
      ev = StockEvent msg now reply ∧ ticker msg = t
      ∧ trigger_fired (process st ev).2 = true
      ∧ last_alert_time rec' = Some now
      ∧ (last_alert_time rec = None
         ∨ ∃ t0, last_alert_time rec = Some t0
                 ∧ (ALERT_COOLDOWN_SECONDS * 1000000 < now - t0)%Z).
Proof.
  intros Hrec Hrec'. destruct ev as [msg now reply|msg reply]; simpl in *.
  - rewrite handle_stock_message_state in Hrec'.
    destruct (accepted msg) eqn:Hacc;
      [|rewrite stock_rejected in Hrec' by done; left; simpl in Hrec'; congruence].
    destruct (decide (ticker msg = t)) as [<-|Hne];
      [|rewrite stock_other_ticker in Hrec' by done; left; congruence].
    destruct (stock_effect st msg now Hacc) as [Hst' _].
    rewrite Hst', lookup_insert_eq, Hrec in Hrec'. injection Hrec' as <-.
    simpl. destruct (trigger_fired (suspended_log _)) eqn:Hfired; [|by left].
    right. exists msg, now, reply. rewrite handle_stock_message_fired.
    repeat split; try done.
    apply cooldown_elapsed_spec. by eapply stock_fired_cooldown.
  - left. pose proof (news_keeps_price_and_alert st msg reply t) as Hkeep.
    rewrite Hrec, Hrec' in Hkeep. by injection Hkeep.
Qed.

(** X7: a price that is not a number, once recorded, hides the next
    move: whatever the state, the price event that follows the NaN
    event on the same ticker fires no trigger, however far its price is
    from the last real one. *)
Theorem nan_price_masks_next_move st msg1 now1 reply1 msg2 now2 reply2 :
  ticker msg1 ≠ ""%string →
  price msg1 = nan →
  ticker msg2 = ticker msg1 →
  trigger_fired
    (handle_stock_message (handle_stock_message st msg1 now1 reply1).1
       msg2 now2 reply2).2 = false.
Proof.
  intros Hticker Hnan Hsame.
  assert (accepted msg1 = true) as Hacc1.
  { unfold accepted. rewrite Hnan. apply negb_true_iff, orb_false_iff.
    split; [by apply String.eqb_neq|done]. }
  rewrite handle_stock_message_fired, handle_stock_message_state.
  destruct (stock_effect st msg1 now1 Hacc1) as [-> _].
  destruct (accepted msg2) eqn:Hacc2; [|by rewrite stock_rejected].
  unfold accepted in Hacc2. apply negb_true_iff in Hacc2.
  unfold handle_stock_message_begin at 1. rewrite Hacc2, Hsame, lookup_insert_eq.
  assert (last_price (record_after_price (st !! ticker msg1) (price msg1) now1
            (trigger_fired (suspended_log (handle_stock_message_begin st msg1 now1))))
          = Some nan) as ->.
  { rewrite Hnan. unfold record_after_price.
    destruct (st !! ticker msg1); [|done]. by destruct (trigger_fired _). }
  done.
Qed.

(** ** The record of NVDA is always there *)

Lemma process_keeps_records st ev t :
  is_Some (st !! t) → is_Some ((process st ev).1 !! t).
Proof.
  intros [rec Hrec]. destruct ev as [msg now reply|msg reply]; simpl.
  - rewrite handle_stock_message_state.
    destruct (stock_record_kept st msg now t rec Hrec) as (rec' & -> & _). by eexists.
  - destruct (handle_news_message_shape st msg reply) as [->|(r & w & Hr & ->)];
      [by eexists|].
    destruct (decide (t = "NVDA"%string)) as [->|Hne].
    + rewrite lookup_insert_eq. by eexists.
    + rewrite lookup_insert_ne by done. by eexists.
Qed.

Lemma run_keeps_records st evs t :
  is_Some (st !! t) → is_Some (run st evs !! t).
Proof.
  induction evs as [|ev evs IH] using rev_ind; intros Hst; [done|].
  rewrite run_snoc. by apply process_keeps_records, IH.
Qed.

Lemma analyze_logs_initialized headline reply :
  warns_not_initialized (analyze_news_sentiment headline reply).2 = false.
Proof.
  unfold analyze_news_sentiment. destruct news_sentiment_chain; [|done]. simpl.
  destruct reply as [text|]; [|done].
  rewrite analyze_news_sentiment_resume_Content. unfold extract_sentiment. simpl.
  by destruct (String.eqb _ _).
Qed.

Lemma continue_logs_initialized st msg outcome :
  is_Some (st !! "NVDA") →
  warns_not_initialized (handle_news_message_continue st msg outcome).2
  = warns_not_initialized outcome.2.
Proof.
  intros [rec Hrec]. unfold handle_news_message_continue, warns_not_initialized.
  destruct outcome as [[sentiment|e] log]; simpl;
    [|by rewrite existsb_app, orb_false_r].
  rewrite Hrec. destruct (_ && _);
    [destruct (sort_desc _)|]; simpl; by rewrite ?existsb_app, ?orb_false_r.
Qed.

(** X8: in every state reached from the initial one, whatever events
    came, ["NVDA"] has a record, and the news handler never takes its
    branch for a ticker without state: it never logs the warning that
    the state is not initialised. *)
Theorem state_not_initialized_unreachable evs msg reply :
  is_Some (run agent_state evs !! "NVDA")
  ∧ warns_not_initialized
      (handle_news_message (run agent_state evs) msg reply).2 = false.
Proof.
  assert (is_Some (run agent_state evs !! "NVDA")) as Hsome.
  { apply run_keeps_records. unfold agent_state. rewrite lookup_singleton_eq.
    by eexists. }
  split; [done|].
  destruct (decide (headline msg = ""%string)) as [Hempty|Hh].
  - by rewrite news_rejected.
  - rewrite handle_news_message_unfold by done.
    pose proof (continue_logs_initialized (run agent_state evs) msg
                  (analyze_news_sentiment (headline msg) reply) Hsome) as Hlog.
    destruct (handle_news_message_continue _ _ _) as [st' log]. simpl in *.
    by rewrite Hlog, analyze_logs_initialized.
Qed.

(** ** What the sentiment helper finds in a reply *)

Lemma contains_prefix needle hay :
  String.prefix needle hay = true → contains needle hay = true.
Proof. intros H. destruct hay as [|c hay]; cbn [contains]; by rewrite H. Qed.

Lemma contains_cons needle c hay :
  contains needle hay = true → contains needle (String c hay) = true.
Proof. intros H. cbn [contains]. rewrite H. apply orb_true_r. Qed.

Lemma contains_app_r needle before hay :
  contains needle hay = true → contains needle (before +:+ hay) = true.
Proof.
  intros H. induction before as [|c before IH]; [done|].
  by apply contains_cons.
Qed.

Lemma prefix_app (w rest : string) : String.prefix w (w +:+ rest) = true.
Proof.
  induction w as [|c w IH]; simpl; [by destruct rest|].
  destruct (ascii_dec c c); [done|congruence].
Qed.

Lemma append_snoc (word : string) c s :
  (word +:+ String c EmptyString) +:+ s = word +:+ String c s.
Proof.
  induction word as [|d word IH]; [done|].
  change (String d ((word +:+ String c EmptyString) +:+ s)
          = String d (word +:+ String c s)).
  by rewrite IH.
Qed.

(** A word of [split] occurs in the string that was split. *)
Lemma split_from_contains word s w :
  w ∈ split_from word s → contains w (word +:+ s) = true.
Proof.
  revert word. induction s as [|c s IH]; intros word; simpl.
  - destruct (String.eqb word ""); [by intros ?%elem_of_nil|].
    intros ->%list_elem_of_singleton. apply contains_prefix, prefix_app.
  - destruct (isspace c).
    + destruct (String.eqb word "") eqn:Hword.
      * apply String.eqb_eq in Hword as ->. intros Hw%IH. by apply contains_cons.
      * intros [->|Hw%IH]%elem_of_cons.
        -- apply contains_prefix, prefix_app.
        -- by apply contains_app_r, contains_cons.
    + intros Hw%IH. by rewrite append_snoc in Hw.
Qed.

Lemma mem_contains v s : mem v (split s) = true → contains v s = true.
Proof.
  unfold mem, split. intros H%bool_decide_eq_true.
  by apply split_from_contains in H.
Qed.

Lemma valid_not_unknown v : v ∈ valid_sentiments → v ≠ "UNKNOWN"%string.
Proof.
  unfold valid_sentiments. intros H ->.
  repeat (apply elem_of_cons in H as [[=]|H]). by apply elem_of_nil in H.
Qed.

Lemma extract_sentiment_occurs content :
  let tag := (extract_sentiment content).1 in
  (tag ∈ valid_sentiments ∧ contains tag (upper (strip content)) = true)
  ∨ (tag = "UNKNOWN"%string
     ∧ ∀ v, v ∈ valid_sentiments → contains v (upper (strip content)) = false).
Proof.
  unfold extract_sentiment. cbn [fst].
  destruct (find (λ valid, mem valid _) valid_sentiments) as [valid|] eqn:Hword.
  { left. apply find_some in Hword as [Hin Hmem].
    split; [by apply list_elem_of_In|by apply mem_contains]. }
  destruct (find (λ valid, contains valid _) valid_sentiments) as [valid|] eqn:Hpart.
  { left. apply find_some in Hpart as [Hin Hc]. split; [by apply list_elem_of_In|done]. }
  right. split; [done|]. intros v Hv.
  by apply (find_none _ _ Hpart), list_elem_of_In.
Qed.

(** X9: with the sentiment chain built and a text reply, the helper
    returns a label only if that label occurs in the reply once
    stripped and upper-cased, and returns UNKNOWN exactly when none of
    the three labels occurs there. *)
Theorem sentiment_label_occurs_in_reply headline text :
  news_sentiment_chain = true →
  ∃ tag, (analyze_news_sentiment headline (Content text)).1 = Returned tag
    ∧ (tag ∈ valid_sentiments → contains tag (upper (strip text)) = true)
    ∧ (tag = "UNKNOWN"%string
       ↔ ∀ v, v ∈ valid_sentiments → contains v (upper (strip text)) = false).
Proof.
  intros Hchain. unfold analyze_news_sentiment. rewrite Hchain. cbn [negb].
  rewrite analyze_news_sentiment_resume_Content. cbn [fst].
  exists (extract_sentiment text).1. split; [done|].
  destruct (extract_sentiment_occurs text) as [[Hin Hc]|[Hu Hnone]].
  - split; [done|]. split.
    + intros Hu. by destruct (valid_not_unknown _ Hin).
    + intros Hnone. by rewrite (Hnone _ Hin) in Hc.
  - split; [|done]. intros Hin. rewrite Hu in Hin.
    by destruct (valid_not_unknown _ Hin).
Qed.

(** ** The window as the most recent entries *)

Lemma insert_desc_cons_same x y l :
  tz_aware x.1 = tz_aware y.1 →
  insert_desc x (y :: l)
  = if (micros x.1 <? micros y.1)%Z
    then r ← insert_desc x l; mret (y :: r)
    else Returned (x :: y :: l).
Proof. intros H. simpl. by rewrite datetime_lt_same. Qed.

Lemma insert_desc_insert_last b (x e : sentiment_entry) s' s :
  tz_aware x.1 = b → tz_aware e.1 = b → uniform b s' →
  insert_desc x s' = Returned s →
  insert_desc x (insert_last e s') = Returned (insert_last e s).
Proof.
  intros Hx He. revert s. induction s' as [|y s' IH]; intros s Hs' Hins.
  - injection Hins as <-. cbn [insert_last].
    rewrite insert_desc_cons_same by congruence.
    by destruct (micros x.1 <? micros e.1)%Z.
  - apply Forall_cons in Hs' as [Hy Hs'].
    rewrite insert_desc_cons_same in Hins by congruence.
    cbn [insert_last]. destruct (micros y.1 <? micros e.1)%Z eqn:Hye.
    + rewrite insert_desc_cons_same by congruence.
      destruct (micros x.1 <? micros y.1)%Z eqn:Hxy.
      * apply py_bind_Returned in Hins as (r & Hr & [= <-]).
        assert ((micros x.1 <? micros e.1)%Z = true) as ->
          by (apply Z.ltb_lt; apply Z.ltb_lt in Hye, Hxy; lia).
        rewrite insert_desc_cons_same by congruence. rewrite Hxy, Hr.
        cbn [insert_last]. by rewrite Hye.
      * injection Hins as <-. cbn [insert_last].
        destruct (micros x.1 <? micros e.1)%Z eqn:Hxe; [|by rewrite Hye].
        rewrite insert_desc_cons_same by congruence. by rewrite Hxy.
    + rewrite insert_desc_cons_same by congruence.
      destruct (micros x.1 <? micros y.1)%Z eqn:Hxy.
      * apply py_bind_Returned in Hins as (r & Hr & [= <-]).
        rewrite (IH r Hs' Hr). cbn [insert_last]. by rewrite Hye.
      * injection Hins as <-. cbn [insert_last].
        assert ((micros x.1 <? micros e.1)%Z = false) as ->
          by (apply Z.ltb_ge; apply Z.ltb_ge in Hye, Hxy; lia).
        by rewrite Hye.
Qed.

(** Sorting a list with one more entry at its end puts that entry
    behind the sorted entries that are not older. *)
Lemma sort_desc_snoc b (l : list sentiment_entry) (e : sentiment_entry) s :
  uniform b l → tz_aware e.1 = b →
  sort_desc l = Returned s →
  sort_desc (l ++ [e]) = Returned (insert_last e s).
Proof.
  intros Hl He. revert s. induction l as [|x l IH]; intros s Hs.
  - by injection Hs as <-.
  - apply Forall_cons in Hl as [Hx Hl]. simpl in *.
    apply py_bind_Returned in Hs as (s' & Hs' & Hins).
    rewrite (IH Hl s' Hs'). simpl.
    apply (insert_desc_insert_last b); try done.
    apply (uniform_perm b l); [|done]. symmetry. by apply sort_desc_perm.
Qed.

Lemma take_insert_last n e s :
  take n (insert_last e (take n s)) = take n (insert_last e s).
Proof.
  revert n. induction s as [|y s IH]; intros [|n]; simpl; try done.
  destruct (micros y.1 <? micros e.1)%Z; simpl.
  - f_equal. destruct n as [|n]; simpl; [done|].
    rewrite take_take. by replace (n `min` S n) with n by lia.
  - by rewrite IH.
Qed.

Lemma sort_desc_sorted b l :
  uniform b l → Sorted desc l → sort_desc l = Returned l.
Proof.
  induction l as [|x l IH]; [done|]. intros [Hx Hl]%Forall_cons [Hsl Hhd]%Sorted_inv.
  simpl. rewrite (IH Hl Hsl). simpl.
  destruct l as [|y l]; [done|]. simpl.
  apply Forall_cons in Hl as [Hy _]. rewrite datetime_lt_same by congruence.
  apply HdRel_inv in Hhd. unfold desc in Hhd.
  by assert ((micros x.1 <? micros y.1)%Z = false) as -> by (apply Z.ltb_ge; lia).
Qed.

Lemma Sorted_take {A} (R : A → A → Prop) n l : Sorted R l → Sorted R (take n l).
Proof.
  intros Hl. revert n. induction Hl as [|x l Hl IH Hhd]; intros [|n]; simpl;
    try by constructor.
  constructor; [apply IH|].
  destruct Hhd as [|y l' Hxy]; destruct n; simpl; by constructor.
Qed.

Lemma window_after_sorted b (w : list sentiment_entry) msg tag :
  uniform b w → Sorted desc w → tz_aware (timestamp msg) = b →
  window_after w msg tag
  = take MAX_NEWS_HISTORY (insert_last (timestamp msg, tag) w).
Proof.
  intros Hw Hsorted Hmsg. unfold window_after. cbv zeta.
  replace (sort_desc (w ++ [(timestamp msg, tag)]))
    with (Returned (insert_last (timestamp msg, tag) w)); [done|].
  symmetry. apply (sort_desc_snoc b); try done. by apply (sort_desc_sorted b).
Qed.

Lemma nvda_window_stock st msg now w :
  nvda_window st = Some w →
  nvda_window (suspended_state (handle_stock_message_begin st msg now)) = Some w.
Proof.
  unfold nvda_window. destruct (st !! "NVDA") as [rec|] eqn:Hrec; [|done].
  intros [= <-].
  destruct (stock_record_kept st msg now _ rec Hrec) as (rec' & -> & Hw).
  simpl. by rewrite Hw.
Qed.

Lemma news_not_persisted st msg reply :
  persisted_entry (NewsEvent msg reply) = None →
  (handle_news_message st msg reply).1 = st.
Proof.
  unfold persisted_entry.
  destruct (String.eqb (headline msg) "") eqn:Hh.
  { intros _. apply String.eqb_eq in Hh. by rewrite news_rejected. }
  apply String.eqb_neq in Hh.
  destruct (analyze_news_sentiment_tag (headline msg) reply) as (tag & Htag & _).
  rewrite Htag. rewrite (handle_news_message_state st msg reply tag Hh Htag).
  destruct (persists tag); [done|]. by destruct (st !! "NVDA").
Qed.

Lemma news_persisted st msg reply e w :
  persisted_entry (NewsEvent msg reply) = Some e →
  nvda_window st = Some w →
  e.1 = timestamp msg
  ∧ nvda_window (handle_news_message st msg reply).1
    = Some (window_after w msg e.2).
Proof.
  unfold persisted_entry.
  destruct (String.eqb (headline msg) "") eqn:Hh; [done|].
  apply String.eqb_neq in Hh.
  destruct (analyze_news_sentiment (headline msg) reply).1 as [tag|] eqn:Htag; [|done].
  destruct (persists tag) eqn:Hp; [|done]. intros [= <-] Hw. split; [done|].
  by apply nvda_window_news.
Qed.

Lemma history_snoc evs ev :
  history (evs ++ [ev])
  = history evs ++ match persisted_entry ev with Some e => [e] | None => [] end.
Proof. unfold history. rewrite omap_app. simpl. by destruct (persisted_entry ev). Qed.

(** The window of ["NVDA"] is the head of all entries persisted so far,
    sorted by descending timestamp. *)
Lemma window_top_of_history b evs :
  news_uniform b evs →
  ∃ s, sort_desc (history evs) = Returned s
       ∧ Sorted desc s ∧ uniform b s
       ∧ nvda_window (run agent_state evs) = Some (take MAX_NEWS_HISTORY s).
Proof.
  induction evs as [|ev evs IH] using rev_ind; intros Hevs.
  - exists []. repeat split; constructor.
  - apply Forall_app in Hevs as [Hevs Hev%Forall_inv].
    destruct (IH Hevs) as (s & Hs & Hsorted & Hunif & Hw).
    rewrite run_snoc, history_snoc.
    destruct (persisted_entry ev) as [e|] eqn:He.
    + destruct ev as [|msg reply]; [done|]. cbn [process].
      destruct (news_persisted _ msg reply e _ He Hw) as [Hts ->].
      assert (tz_aware e.1 = b) as Hb by by rewrite Hts.
      assert (uniform b (history evs)) as Hhist.
      { apply (uniform_perm b s); [|done]. by apply sort_desc_perm. }
      exists (insert_last e s).
      rewrite (sort_desc_snoc b _ e s Hhist Hb Hs).
      destruct (sort_desc_uniform b (history evs ++ [e])) as (s2 & Hs2 & Hsorted2).
      { apply Forall_app. split; [done|]. by constructor. }
      rewrite (sort_desc_snoc b _ e s Hhist Hb Hs) in Hs2. injection Hs2 as <-.
      split; [done|]. split; [done|]. split.
      * apply (uniform_perm b (history evs ++ [e])).
        -- symmetry. apply sort_desc_perm. by apply (sort_desc_snoc b).
        -- apply Forall_app. split; [done|]. by constructor.
      * rewrite (window_after_sorted b); [|by apply Forall_take|by apply Sorted_take|done].
        f_equal. destruct e as [ts tag]. simpl in Hts. subst ts. simpl.
        apply take_insert_last.
    + rewrite app_nil_r. exists s. repeat split; try done.
      destruct ev as [msg now reply|msg reply]; cbn [process].
      * rewrite handle_stock_message_state. by apply nvda_window_stock.
      * by rewrite news_not_persisted.
Qed.

(** X10: while the news timestamps are all naive or all aware, the
    window of ["NVDA"] holds exactly the first [MAX_NEWS_HISTORY] of all
    entries persisted so far when these are put in descending order of
    timestamp (entries of equal timestamp in their order of arrival):
    older entries are dropped, never newer ones. *)
Theorem window_holds_most_recent b evs :
  news_uniform b evs →
  ∃ s, sort_desc (history evs) = Returned s
       ∧ Sorted desc s ∧ Permutation s (history evs)
       ∧ nvda_window (run agent_state evs) = Some (take MAX_NEWS_HISTORY s).
Proof.
  intros Hevs.
  destruct (window_top_of_history b evs Hevs) as (s & Hs & Hsorted & _ & Hw).
  exists s. repeat split; try done. by apply sort_desc_perm.
Qed.

(** X11: while the news timestamps are all naive or all aware, the
    window of ["NVDA"] has as many entries as news events were persisted,
    up to [MAX_NEWS_HISTORY]. *)
Theorem window_length_is_min b evs :
  news_uniform b evs →
  ∃ w, nvda_window (run agent_state evs) = Some w
       ∧ length w = length (history evs) `min` MAX_NEWS_HISTORY.
Proof.
  intros Hevs.
  destruct (window_top_of_history b evs Hevs) as (s & Hs & _ & _ & Hw).
  exists (take MAX_NEWS_HISTORY s). split; [done|].
  rewrite length_take, (Permutation_length (sort_desc_perm _ _ Hs)). lia.
Qed.

(** ** A window with timestamps of both kinds *)

Lemma mixed_window_process st ev w :
  nvda_window st = Some w → mixed w →
  ∃ w', nvda_window (process st ev).1 = Some w' ∧ mixed w'
        ∧ length w' = length w + length (history [ev]).
Proof.
  intros Hw Hm. unfold history. simpl.
  destruct (persisted_entry ev) as [e|] eqn:He.
  - destruct ev as [|msg reply]; [done|]. cbn [process].
    destruct (news_persisted _ msg reply e _ He Hw) as [Hts ->].
    destruct (window_after_mixed w msg e.2) as [Hlen Hm'].
    { by apply mixed_app_l. }
    eexists. split; [done|]. split; [done|]. rewrite Hlen. simpl. lia.
  - exists w. split; [|split; [done|simpl; lia]].
    destruct ev as [msg now reply|msg reply]; cbn [process].
    + rewrite handle_stock_message_state. by apply nvda_window_stock.
    + by rewrite news_not_persisted.
Qed.

(** X12: once the window of ["NVDA"] holds a naive and an aware
    timestamp it never recovers: whatever events follow, it keeps
    holding both kinds and every persisted sentiment makes it one entry
    longer, with nothing ever cut off. *)
Theorem mixed_window_only_grows st evs w :
  nvda_window st = Some w →
  mixed w →
  ∃ w', nvda_window (run st evs) = Some w' ∧ mixed w'
        ∧ length w' = length w + length (history evs).
Proof.
  intros Hw Hm. induction evs as [|ev evs IH] using rev_ind.
  - exists w. split; [done|]. split; [done|]. simpl. lia.
  - destruct IH as (w1 & Hw1 & Hm1 & Hlen1).
    destruct (mixed_window_process (run st evs) ev w1 Hw1 Hm1) as (w2 & Hw2 & Hm2 & Hlen2).
    exists w2. rewrite run_snoc. split; [done|]. split; [done|].
    rewrite history_snoc, length_app, Hlen2, Hlen1.
    unfold history. simpl. destruct (persisted_entry ev); simpl; lia.
Qed.

(** ** The keys of the state *)

Lemma process_keys st ev :
  dom (process st ev).1
  = dom st ∪ match accepted_ticker ev with Some t => {[t]} | None => ∅ end.
Proof.
  destruct ev as [msg now reply|msg reply]; simpl.
  - rewrite handle_stock_message_state. destruct (accepted msg) eqn:Hacc.
    + destruct (stock_effect st msg now Hacc) as [-> _].
      by rewrite dom_insert_L, (comm_L (∪)).
    + rewrite stock_rejected by done. simpl. by rewrite (right_id_L ∅ (∪)).
  - rewrite (right_id_L ∅ (∪)).
    destruct (handle_news_message_shape st msg reply) as [->|(rec & w & Hrec & ->)];
      [done|].
    rewrite dom_insert_L. apply subseteq_union_1_L, singleton_subseteq_l.
    by eapply elem_of_dom_2.
Qed.

(** X13: the keys of the state are those it started with and the
    tickers of the price events that were accepted: an accepted price
    event of a new ticker adds its key, and no other event adds or
    removes one. *)
Theorem state_keys st evs :
  dom (run st evs) = dom st ∪ list_to_set (omap accepted_ticker evs).
Proof.
  induction evs as [|ev evs IH] using rev_ind.
  - simpl. by rewrite (right_id_L ∅ (∪)).
  - rewrite run_snoc, process_keys, IH, omap_app, list_to_set_app_L.
    rewrite <- (assoc_L (∪)). f_equal. simpl.
    destruct (accepted_ticker ev); simpl; by rewrite ?(right_id_L ∅ (∪)).
Qed.

(** ** Any number of handlers on one event loop *)

Lemma apply_pending_done st order :
  Forall (λ t, t = TaskDone) order → apply_pending st order = st.
Proof.
  intros H. revert st. induction H as [|t order -> _ IH]; intros st; [done|].
  apply IH.
Qed.

Lemma apply_pending_skip st l1 t l2 :
  (∀ s, pending t s = s) →
  apply_pending st (l1 ++ t :: l2) = apply_pending st (l1 ++ l2).
Proof. intros Ht. unfold apply_pending. rewrite !foldl_app. simpl. by rewrite Ht. Qed.

Lemma apply_pending_replace st l1 t t' l2 :
  (∀ s, pending t' s = pending t s) →
  apply_pending st (l1 ++ t' :: l2) = apply_pending st (l1 ++ t :: l2).
Proof. intros Ht. unfold apply_pending. rewrite !foldl_app. simpl. by rewrite Ht. Qed.

Lemma apply_pending_tasks st evs :
  apply_pending st (task_of <$> evs) = run st evs.
Proof.
  revert st. induction evs as [|ev evs IH]; intros st; [done|].
  simpl. rewrite IH. by destruct ev.
Qed.

(** When a schedule leaves every task of a pool done, the state is the
    one after the pending effects of the tasks, taken in some order. *)
Lemma pool_linearizes schedule st tasks :
  Forall (λ t, t = TaskDone) (interleave_pool schedule (st, tasks)).2 →
  ∃ order, order ≡ₚ tasks
           ∧ (interleave_pool schedule (st, tasks)).1 = apply_pending st order.
Proof.
  revert st tasks. induction schedule as [|i schedule IH]; intros st tasks Hdone.
  { exists tasks. split; [done|]. simpl in *. by rewrite apply_pending_done. }
  change (interleave_pool (i :: schedule) (st, tasks))
    with (interleave_pool schedule (step_pool (st, tasks) i)) in *.
  unfold step_pool in *. cbn [fst snd] in *.
  destruct (tasks !! i) as [t|] eqn:Hi; [|by apply IH].
  pose proof (step_task_pending st t) as Hstep.
  destruct (step_task st t) as [st1 t1]. cbn [fst snd] in Hstep.
  destruct (IH st1 (<[i:=t1]> tasks) Hdone) as (order1 & Hperm1 & ->).
  pose proof (lookup_lt_Some _ _ _ Hi) as Hlt.
  rewrite insert_take_drop in Hperm1 by done.
  assert (t1 ∈ order1) as (l1 & l2 & ->)%list_elem_of_split.
  { rewrite Hperm1. apply elem_of_app. right. left. }
  apply Permutation_app_inv in Hperm1.
  assert (l1 ++ t :: l2 ≡ₚ tasks) as Hperm.
  { rewrite <- (take_drop_middle tasks i t Hi).
    rewrite <- !Permutation_middle. by constructor. }
  destruct Hstep as [[-> Hid]|[-> Hsame]].
  - exists (t :: l1 ++ l2). split.
    + by rewrite <- Hperm, Permutation_middle.
    + by rewrite apply_pending_skip.
  - exists (l1 ++ t :: l2). split; [done|]. by apply apply_pending_replace.
Qed.

(** X14: any number of price and news events handled at the same time,
    the event loop resuming their handlers in any order, leave the state
    that handling the events one after the other leaves, in some
    order of the events. *)
Theorem concurrent_pool_linearizes st evs schedule :
  let final := interleave_pool schedule (st, task_of <$> evs) in
  Forall (λ t, t = TaskDone) final.2 →
  ∃ evs', evs' ≡ₚ evs ∧ final.1 = run st evs'.
Proof.
  simpl. intros Hdone.
  destruct (pool_linearizes schedule st _ Hdone) as (order & Hperm & ->).
  apply Permutation_map_inv in Hperm as (evs' & -> & Hperm).
  exists evs'. split; [done|]. apply apply_pending_tasks.
Qed.

(** ** News messages that pass validation *)

Lemma news_accepted_not_dropped st msg reply :
  headline msg ≠ ""%string →
  dropped_with_warning (handle_news_message st msg reply).2 = false.
Proof.
  intros Hh. rewrite handle_news_message_unfold by done.
  assert (dropped_with_warning (analyze_news_sentiment (headline msg) reply).2 = false)
    as Hlog.
  { unfold analyze_news_sentiment. destruct news_sentiment_chain; [|done]. simpl.
    destruct reply as [text|]; [|done].
    rewrite analyze_news_sentiment_resume_Content. unfold extract_sentiment. simpl.
    by destruct (String.eqb _ _). }
  destruct (analyze_news_sentiment (headline msg) reply) as [[tag|e] log];
    unfold handle_news_message_continue, dropped_with_warning in *; simpl in *.
  - destruct (st !! "NVDA"); [destruct (_ && _); [destruct (sort_desc _)|]|];
      simpl; by rewrite ?existsb_app, Hlog.
  - by rewrite existsb_app, Hlog.
Qed.

End Agent.

(** ** The news producer *)

#[local] Set Warnings "-clear-no-such-hyp".

Lemma titles_cons (a : article_input) (rest : list article_input) :
  titles (a :: rest)
  = match a.1.1 with
    | Article (Text h) _ => h :: titles rest
    | _ => titles rest
    end.
Proof. unfold titles. simpl. by destruct a as [[[[| |h|?] ?|] ?] ?]. Qed.

Lemma new_NewsMessage_Some h src now m :
  new_NewsMessage h src now = Some m →
  ∃ s, m = {| headline := h; source := s;
              timestamp := {| tz_aware := false; micros := now |} |}.
Proof. destruct src as [| |s|[s|]]; intros [= <-]; by exists s. Qed.

(** What one pass over a batch does to the set of seen headlines and
    which messages it publishes. *)
Lemma publish_new_spec seen n (articles : list article_input) :
  let r := publish_new seen n articles in
  let sent := headline <$> r.1.2 in
  r.1.1 = seen ∪ list_to_set sent
  ∧ NoDup sent
  ∧ (∀ h, h ∈ sent → h ∉ seen)
  ∧ Forall (λ m, headline m ≠ ""%string ∧ tz_aware (timestamp m) = false) r.1.2
  ∧ sublist sent (titles articles)
  ∧ (∀ k, r.2 = BatchDone k →
       k = n + length sent
       ∧ ∀ h, h ∈ titles articles → h ≠ ""%string → h ∈ r.1.1).
Proof.
  revert seen n. induction articles as [|[[a now] ok] rest IH]; intros seen n;
    cbv zeta.
  { simpl. split; [set_solver|]. split; [constructor|]. split; [set_solver|].
    split; [constructor|]. split; [constructor|].
    intros k [= <-]. split; [simpl; lia|]. intros h Hh. by apply elem_of_nil in Hh. }
  assert (∀ l : list string,
    seen = seen ∪ list_to_set (headline <$> @nil NewsMessage)
    ∧ NoDup (headline <$> @nil NewsMessage)
    ∧ (∀ h, h ∈ headline <$> @nil NewsMessage → h ∉ seen)
    ∧ Forall (λ m, headline m ≠ ""%string ∧ tz_aware (timestamp m) = false) []
    ∧ sublist (headline <$> @nil NewsMessage) l
    ∧ (∀ k, BatchRaised = BatchDone k →
         k = n + length (headline <$> @nil NewsMessage)
         ∧ ∀ h, h ∈ l → h ≠ ""%string → h ∈ seen)) as Habort.
  { intros l. split; [set_solver|]. split; [constructor|]. split; [set_solver|].
    split; [constructor|]. split; [apply sublist_nil_l|]. done. }
  destruct a as [title source|]; [|apply Habort].
  rewrite titles_cons. cbn [publish_new fst].
  destruct (source_name source) as [name|]; [|apply Habort].
  assert (∀ h0,
    (h0 = ""%string ∨ h0 ∈ seen) →
    let r := publish_new seen n rest in
    let sent := headline <$> r.1.2 in
    r.1.1 = seen ∪ list_to_set sent ∧ NoDup sent ∧ (∀ h, h ∈ sent → h ∉ seen)
    ∧ Forall (λ m, headline m ≠ ""%string ∧ tz_aware (timestamp m) = false) r.1.2
    ∧ sublist sent (h0 :: titles rest)
    ∧ (∀ k, r.2 = BatchDone k →
         k = n + length sent
         ∧ ∀ h, h ∈ h0 :: titles rest → h ≠ ""%string → h ∈ r.1.1)) as Hskip.
  { intros h0 Hh0. destruct (IH seen n) as (Hseen & Hnd & Hnew & Hall & Hsub & Hdone).
    repeat split; try done.
    - by apply sublist_cons.
    - by apply Hdone.
    - intros h [->|Hh]%elem_of_cons Hne; [|by apply (Hdone k)].
      destruct Hh0 as [?|Hin]; [done|]. rewrite Hseen. set_solver. }
  destruct title as [| |h0|?]; try apply IH.
  destruct (String.eqb h0 "") eqn:Hempty; simpl.
  { apply String.eqb_eq in Hempty. apply Hskip. by left. }
  apply String.eqb_neq in Hempty.
  case_bool_decide as Hseen; simpl; [apply Hskip; by right|].
  destruct (new_NewsMessage h0 name now) as [message|] eqn:Hmsg; [|apply Habort].
  apply new_NewsMessage_Some in Hmsg as [s ->].
  destruct ok; [|apply Habort].
  destruct (IH ({[h0]} ∪ seen) (S n)) as (Hseen' & Hnd & Hnew & Hall & Hsub & Hdone).
  destruct (publish_new ({[h0]} ∪ seen) (S n) rest) as [[seen' sent] e].
  simpl in Hseen', Hnd, Hnew, Hall, Hsub, Hdone |- *. split; [|split; [|split; [|split; [|split]]]].
  - rewrite Hseen'. set_solver.
  - constructor; [|done]. intros Hin. apply Hnew in Hin. set_solver.
  - intros h [->|Hh]%elem_of_cons; [done|]. apply Hnew in Hh. set_solver.
  - by constructor.
  - by apply sublist_skip.
  - intros k Hk. destruct (Hdone k Hk) as [-> Hall'].
    split; [by rewrite Nat.add_succ_r|].
    intros h [->|Hh]%elem_of_cons Hne.
    + rewrite Hseen'. set_solver.
    + by apply Hall'.
Qed.

Lemma check_news_spec seen r :
  let c := check_news seen r in
  let sent := headline <$> c.1.2 in
  c.1.1 = seen ∪ list_to_set sent
  ∧ NoDup sent
  ∧ (∀ h, h ∈ sent → h ∉ seen)
  ∧ Forall (λ m, headline m ≠ ""%string ∧ tz_aware (timestamp m) = false) c.1.2.
Proof.
  destruct r as [| |articles]; cbv zeta; unfold check_news.
  - simpl. split; [set_solver|]. split; [constructor|]. split; [set_solver|constructor].
  - destruct (publish_new_spec seen 0 (reverse [])) as (? & ? & ? & ? & _). done.
  - destruct (publish_new_spec seen 0 (reverse articles)) as (? & ? & ? & ? & _). done.
Qed.

Lemma check_news_loop_spec seen responses :
  let c := check_news_loop seen responses in
  let sent := headline <$> c.2 in
  c.1 = seen ∪ list_to_set sent
  ∧ NoDup sent
  ∧ (∀ h, h ∈ sent → h ∉ seen)
  ∧ Forall (λ m, headline m ≠ ""%string ∧ tz_aware (timestamp m) = false) c.2.
Proof.
  revert seen. induction responses as [|r responses IH]; intros seen; cbv zeta.
  { simpl. split; [set_solver|]. split; [constructor|]. split; [set_solver|constructor]. }
  cbn [check_news_loop].
  destruct (check_news_spec seen r) as (Hseen1 & Hnd1 & Hnew1 & Hall1).
  destruct (check_news seen r) as [[seen1 sent1] e]. cbn [fst snd] in *.
  destruct (IH seen1) as (Hseen2 & Hnd2 & Hnew2 & Hall2).
  destruct (check_news_loop seen1 responses) as [seen2 sent2]. cbn [fst snd] in *.
  rewrite fmap_app. split; [|split; [|split]].
  - rewrite Hseen2, Hseen1, list_to_set_app_L. set_solver.
  - apply NoDup_app. split; [done|]. split; [|done].
    intros h Hh1 Hh2%Hnew2. rewrite Hseen1 in Hh2. set_solver.
  - intros h [Hh|Hh%Hnew2]%elem_of_app; [by apply Hnew1|].
    rewrite Hseen1 in Hh. set_solver.
  - by apply Forall_app.
Qed.

(** X15: in a run of the news producer no headline is published twice,
    whatever the news API answers from check to check and wherever a
    check is cut short by an exception; the set of seen headlines is
    exactly the set of the headlines published. *)
Theorem no_headline_published_twice newsapi_client responses :
  let r := run_news_producer newsapi_client responses in
  NoDup (headline <$> r.2) ∧ r.1 = list_to_set (headline <$> r.2).
Proof.
  unfold run_news_producer. destruct newsapi_client; cbv zeta.
  - destruct (check_news_loop_spec ∅ responses) as (Hseen & Hnd & _).
    split; [done|]. rewrite Hseen. set_solver.
  - simpl. split; [constructor|done].
Qed.

Lemma titles_app (l1 l2 : list article_input) :
  titles (l1 ++ l2) = titles l1 ++ titles l2.
Proof. apply omap_app. Qed.

Lemma titles_reverse (articles : list article_input) :
  titles (reverse articles) = reverse (titles articles).
Proof.
  induction articles as [|a articles IH]; [done|].
  rewrite reverse_cons, titles_app, IH, titles_cons.
  destruct a as [[[[| |h|?] ?|] ?] ?]; simpl; rewrite ?app_nil_r; try done.
  by rewrite reverse_cons.
Qed.

(** X16: one check publishes the headlines of a batch from the last
    article of the list to the first, the order of the titles kept and
    none published that is not a title of the batch; when the check
    ends without an exception it counts the messages it published, and
    every title of the batch that is a non-empty string has been
    published, in this check or before. *)
Theorem check_publishes_batch_in_reverse seen (articles : list article_input) :
  let c := check_news seen (ApiArticles articles) in
  sublist (headline <$> c.1.2) (reverse (titles articles))
  ∧ ∀ k, c.2 = BatchDone k →
         k = length c.1.2
         ∧ ∀ h, h ∈ titles articles → h ≠ ""%string → h ∈ c.1.1.
Proof.
  cbv zeta. unfold check_news.
  destruct (publish_new_spec seen 0 (reverse articles)) as (_ & _ & _ & _ & Hsub & Hdone).
  rewrite titles_reverse in Hsub, Hdone. split; [done|].
  intros k Hk. destruct (Hdone k Hk) as [-> Hall].
  split; [by rewrite length_fmap|].
  intros h Hh. apply Hall. by apply elem_of_reverse.
Qed.

(** ** The news producer feeding the monitor *)

(** X17: the monitor fed with news by this producer keeps its windows:
    when every news message the monitor handles is one the producer
    published (in any order, repeated or not, price events in between),
    no such message is dropped as invalid and every window holds at
    most [MAX_NEWS_HISTORY] entries in descending order of timestamp. *)
Theorem producer_news_keep_windows (sort_residue : list sentiment_entry → list sentiment_entry)
    (news_sentiment_chain proactive_insight_chain newsapi_client : bool) responses evs :
  news_from (run_news_producer newsapi_client responses).2 evs →
  (∀ st msg reply, NewsEvent msg reply ∈ evs →
     dropped_with_warning
       (handle_news_message sort_residue news_sentiment_chain st msg reply).2 = false)
  ∧ (∀ t rec,
       run sort_residue news_sentiment_chain proactive_insight_chain agent_state evs !! t
       = Some rec →
       window_ok (recent_news_sentiments rec)).
Proof.
  intros Hfrom.
  assert (Forall (λ m, headline m ≠ ""%string ∧ tz_aware (timestamp m) = false)
            (run_news_producer newsapi_client responses).2) as Hsent.
  { unfold run_news_producer. destruct newsapi_client; [|constructor].
    by destruct (check_news_loop_spec ∅ responses) as (_ & _ & _ & ?). }
  rewrite Forall_forall in Hsent. unfold news_from in Hfrom.
  rewrite Forall_forall in Hfrom. split.
  - intros st msg reply Hev. apply news_accepted_not_dropped.
    by destruct (Hsent msg (Hfrom _ Hev)).
  - intros t rec Hrec.
    assert (news_uniform false evs) as Hunif.
    { apply Forall_forall. intros [|msg reply] Hev; [done|].
      by destruct (Hsent msg (Hfrom _ Hev)). }
    by destruct (windows_kept_run sort_residue news_sentiment_chain
                   proactive_insight_chain false evs Hunif t rec Hrec).
Qed.

(** ** Instances

    The properties above at sample inputs, with both chains built and
    with [unsorted] for what a raising sort leaves. *)

Lemma unsorted_perm l : Permutation (unsorted l) l.
Proof. reflexivity. Defined.

Lemma trigger_iff_threshold_and_cooldown_witness :
  trigger_fired
    (handle_stock_message true
       (run unsorted true true agent_state
          [StockEvent (nvda_price 100) 0 Fails;
           StockEvent (nvda_price 105) 0 Fails])
       (nvda_price 111) 600000001 Fails).2 = true.
Proof.
  apply (proj1 (trigger_iff_threshold_and_cooldown unsorted true true)
           [StockEvent (nvda_price 100) 0 Fails; StockEvent (nvda_price 105) 0 Fails]
           (nvda_price 111) 600000001%Z Fails
           {| last_price := Some 105%float; recent_news_sentiments := [];
              last_alert_time := Some 0%Z |}
           105%float);
    [reflexivity | reflexivity | reflexivity |].
  split; [reflexivity|]. right. exists 0%Z. split; reflexivity.
Defined.

Lemma window_bound_broken_by_mixed_timestamps_witness :
  ∃ w, nvda_window (run unsorted true true agent_state mixed_timestamps) = Some w
       ∧ length w = 4 ∧ ¬ window_ok w.
Proof.
  exact (window_bound_broken_by_mixed_timestamps
           unsorted unsorted_perm true true eq_refl).
Defined.

Lemma first_price_event_never_triggers_witness :
  trigger_fired
    (handle_stock_message true
       (run unsorted true true agent_state
          [NewsEvent (headline_at (naive 1)) (Content "POSITIVE")])
       (nvda_price 1000000) 0 Fails).2 = false.
Proof.
  apply (first_price_event_never_triggers unsorted true true
           [NewsEvent (headline_at (naive 1)) (Content "POSITIVE")]
           (nvda_price 1000000) 0%Z Fails).
  repeat constructor.
Defined.

Lemma alert_time_set_before_insight_witness :
  ∃ rec,
    suspended_state
      (handle_stock_message_begin true
         (run unsorted true true agent_state [StockEvent (nvda_price 100) 0 Fails])
         (nvda_price 105) 5) !! "NVDA" = Some rec
    ∧ last_alert_time rec = Some 5%Z.
Proof.
  apply (alert_time_set_before_insight true
           (run unsorted true true agent_state [StockEvent (nvda_price 100) 0 Fails])
           (nvda_price 105) 5%Z Fails).
  reflexivity.
Defined.

Lemma only_classified_sentiments_persist_witness :
  (handle_news_message unsorted true agent_state (headline_at (naive 1)) Fails).1
  = agent_state.
Proof.
  apply (only_classified_sentiments_persist unsorted unsorted_perm true true
           agent_state (headline_at (naive 1)) Fails).
  apply list_elem_of_further, list_elem_of_further, list_elem_of_here.
Defined.

Lemma concurrent_events_linearize_witness :
  let st := run unsorted true true agent_state [StockEvent (nvda_price 100) 0 Fails] in
  let final :=
    interleave unsorted true true [PickStock; PickNews; PickNews; PickStock]
      {| sys_state := st;
         sys_stock := StockTask (nvda_price 105) 5 Fails;
         sys_news := NewsTask (headline_at (naive 1)) (Content "POSITIVE") |} in
  sys_state final
  = run unsorted true true st
      [StockEvent (nvda_price 105) 5 Fails;
       NewsEvent (headline_at (naive 1)) (Content "POSITIVE")]
  ∨ sys_state final
    = run unsorted true true st
        [NewsEvent (headline_at (naive 1)) (Content "POSITIVE");
         StockEvent (nvda_price 105) 5 Fails].
Proof.
  apply (concurrent_events_linearize unsorted true true
           (run unsorted true true agent_state [StockEvent (nvda_price 100) 0 Fails])
           (nvda_price 105) 5%Z Fails (headline_at (naive 1)) (Content "POSITIVE")
           [PickStock; PickNews; PickNews; PickStock]);
    reflexivity.
Defined.

Lemma state_record_seeded_unless_nvda_witness :
  seeded_by_first_price unsorted true true
    [NewsEvent (headline_at (naive 1)) (Content "POSITIVE");
     StockEvent (nvda_price 100) 0 Fails]
    (aapl_price 190) 0 Fails.
Proof.
  apply (state_record_seeded_unless_nvda unsorted true true
           [NewsEvent (headline_at (naive 1)) (Content "POSITIVE");
            StockEvent (nvda_price 100) 0 Fails]
           (aapl_price 190) 0%Z Fails).
  - repeat constructor. simpl. discriminate.
  - reflexivity.
  - simpl. discriminate.
Defined.

(** C7 as stated fails on ["NVDA"]: with no price event seen yet its
    record is there, and when its first price event completes after a
    classified headline the window holds that headline's sentiment. *)
Lemma nvda_record_precedes_first_price :
  never_priced "NVDA" [NewsEvent (headline_at (naive 1)) (Content "POSITIVE")]
  ∧ accepted (nvda_price 100) = true
  ∧ ¬ seeded_by_first_price unsorted true true
        [NewsEvent (headline_at (naive 1)) (Content "POSITIVE")]
        (nvda_price 100) 0 Fails
  ∧ agent_state !! "NVDA" ≠ None
  ∧ nvda_window
      (run unsorted true true agent_state
         [NewsEvent (headline_at (naive 1)) (Content "POSITIVE");
          StockEvent (nvda_price 100) 0 Fails])
    = Some [(naive 1, "POSITIVE"%string)].
Proof.
  split; [repeat constructor|]. split; [reflexivity|]. split; [|split].
  - intros [Hnone _]. vm_compute in Hnone. discriminate.
  - vm_compute. discriminate.
  - reflexivity.
Qed.

Lemma window_kept_on_uniform_timestamps_witness :
  ∃ rec,
    run unsorted true true agent_state
      [NewsEvent (headline_at (naive 5)) (Content "positive");
       NewsEvent (headline_at (naive 7)) (Content "It is Negative.");
       NewsEvent (headline_at (naive 6)) (Content "neutral");
       NewsEvent (headline_at (naive 8)) (Content "POSITIVE")] !! "NVDA" = Some rec
    ∧ length (recent_news_sentiments rec) ≤ MAX_NEWS_HISTORY
    ∧ sorted_desc (recent_news_sentiments rec).
Proof.
  eexists. split; [reflexivity|].
  apply (window_kept_on_uniform_timestamps unsorted true true false
           [NewsEvent (headline_at (naive 5)) (Content "positive");
            NewsEvent (headline_at (naive 7)) (Content "It is Negative.");
            NewsEvent (headline_at (naive 6)) (Content "neutral");
            NewsEvent (headline_at (naive 8)) (Content "POSITIVE")]
           "NVDA"%string).
  - repeat constructor.
  - reflexivity.
Defined.

Lemma cooldown_enforced_witness :
  trigger_fired
    (handle_stock_message true
       (run unsorted true true
          (handle_stock_message true
             (run unsorted true true agent_state [StockEvent (nvda_price 100) 0 Fails])
             (nvda_price 105) 5 Fails).1
          [NewsEvent (headline_at (naive 1)) (Content "POSITIVE")])
       (nvda_price 111) 600000006 Fails).2
  = (PRICE_CHANGE_THRESHOLD_PERCENT <=? abs (change_percent 111 105))%float
    && (ALERT_COOLDOWN_SECONDS * 1000000 <? 600000006 - 5)%Z.
Proof.
  apply (cooldown_enforced unsorted true true
           (run unsorted true true agent_state [StockEvent (nvda_price 100) 0 Fails])
           (nvda_price 105) 5%Z Fails
           [NewsEvent (headline_at (naive 1)) (Content "POSITIVE")]
           (nvda_price 111) 600000006%Z Fails);
    [reflexivity | repeat constructor | reflexivity | reflexivity].
Defined.

Lemma alert_time_moves_only_past_cooldown_witness :
  Some 5%Z = None
  ∨ ∃ msg now reply,
      StockEvent (nvda_price 105) 5 Fails = StockEvent msg now reply
      ∧ ticker msg = "NVDA"%string
      ∧ trigger_fired
          (process unsorted true true
             (run unsorted true true agent_state [StockEvent (nvda_price 100) 0 Fails])
             (StockEvent (nvda_price 105) 5 Fails)).2 = true
      ∧ Some 5%Z = Some now
      ∧ (@None Z = None
         ∨ ∃ t0, None = Some t0 ∧ (ALERT_COOLDOWN_SECONDS * 1000000 < now - t0)%Z).
Proof.
  apply (alert_time_moves_only_past_cooldown unsorted true true
           (run unsorted true true agent_state [StockEvent (nvda_price 100) 0 Fails])
           (StockEvent (nvda_price 105) 5 Fails) "NVDA"%string
           {| last_price := Some 100%float; recent_news_sentiments := [];
              last_alert_time := None |}
           {| last_price := Some 105%float; recent_news_sentiments := [];
              last_alert_time := Some 5%Z |});
    reflexivity.
Defined.

Lemma nan_price_masks_next_move_witness :
  trigger_fired
    (handle_stock_message true
       (handle_stock_message true
          (run unsorted true true agent_state [StockEvent (nvda_price 100) 0 Fails])
          (nvda_price nan) 5 Fails).1
       (nvda_price 200) 10 Fails).2 = false.
Proof.
  apply (nan_price_masks_next_move true
           (run unsorted true true agent_state [StockEvent (nvda_price 100) 0 Fails])
           (nvda_price nan) 5%Z Fails (nvda_price 200) 10%Z Fails);
    [discriminate | reflexivity | reflexivity].
Defined.

Lemma sentiment_label_occurs_in_reply_witness :
  ∃ tag,
    (analyze_news_sentiment true "NVIDIA announces new chip"
       (Content " It looks positive. ")).1 = Returned tag
    ∧ (tag ∈ valid_sentiments →
       contains tag (upper (strip " It looks positive. ")) = true)
    ∧ (tag = "UNKNOWN"%string
       ↔ ∀ v, v ∈ valid_sentiments →
              contains v (upper (strip " It looks positive. ")) = false).
Proof.
  exact (sentiment_label_occurs_in_reply true "NVIDIA announces new chip"
           " It looks positive. " eq_refl).
Defined.

Lemma naive_news_uniform : news_uniform false naive_news.
Proof. repeat constructor. Defined.

Lemma window_holds_most_recent_witness :
  ∃ s, sort_desc (history true naive_news) = Returned s
       ∧ Sorted desc s ∧ Permutation s (history true naive_news)
       ∧ nvda_window (run unsorted true true agent_state naive_news)
         = Some (take MAX_NEWS_HISTORY s).
Proof.
  exact (window_holds_most_recent unsorted true true false naive_news
           naive_news_uniform).
Defined.

Lemma window_length_is_min_witness :
  ∃ w, nvda_window (run unsorted true true agent_state naive_news) = Some w
       ∧ length w = length (history true naive_news) `min` MAX_NEWS_HISTORY.
Proof.
  exact (window_length_is_min unsorted true true false naive_news naive_news_uniform).
Defined.

Lemma mixed_window_only_grows_witness :
  ∃ w', nvda_window
          (run unsorted true true (run unsorted true true agent_state mixed_timestamps)
             [NewsEvent (headline_at (aware 9)) (Content "NEUTRAL")]) = Some w'
        ∧ mixed w'
        ∧ length w'
          = 4 + length (history true [NewsEvent (headline_at (aware 9)) (Content "NEUTRAL")]).
Proof.
  apply (mixed_window_only_grows unsorted unsorted_perm true true
           (run unsorted true true agent_state mixed_timestamps)
           [NewsEvent (headline_at (aware 9)) (Content "NEUTRAL")]
           [(naive 1, "POSITIVE"%string); (aware 2, "NEGATIVE"%string);
            (aware 3, "NEUTRAL"%string); (aware 4, "POSITIVE"%string)]).
  - reflexivity.
  - exists (naive 1, "POSITIVE"%string), (aware 2, "NEGATIVE"%string).
    split; [apply list_elem_of_here|].
    split; [apply list_elem_of_further, list_elem_of_here|discriminate].
Defined.

Lemma concurrent_pool_linearizes_witness :
  ∃ evs',
    evs' ≡ₚ [StockEvent (nvda_price 105) 5 Fails;
             NewsEvent (headline_at (naive 1)) (Content "POSITIVE");
             NewsEvent (headline_at (naive 2)) (Content "NEGATIVE")]
    ∧ (interleave_pool unsorted true true [1; 0; 2; 2; 0; 1]
         (run unsorted true true agent_state [StockEvent (nvda_price 100) 0 Fails],
          task_of <$> [StockEvent (nvda_price 105) 5 Fails;
                       NewsEvent (headline_at (naive 1)) (Content "POSITIVE");
                       NewsEvent (headline_at (naive 2)) (Content "NEGATIVE")])).1
      = run unsorted true true
          (run unsorted true true agent_state [StockEvent (nvda_price 100) 0 Fails]) evs'.
Proof.
  apply (concurrent_pool_linearizes unsorted true true
           (run unsorted true true agent_state [StockEvent (nvda_price 100) 0 Fails])
           [StockEvent (nvda_price 105) 5 Fails;
            NewsEvent (headline_at (naive 1)) (Content "POSITIVE");
            NewsEvent (headline_at (naive 2)) (Content "NEGATIVE")]
           [1; 0; 2; 2; 0; 1]).
  vm_compute. repeat constructor.
Defined.

Lemma producer_news_keep_windows_witness :
  (∀ st msg reply, NewsEvent msg reply ∈ sample_feed →
     dropped_with_warning (handle_news_message unsorted true st msg reply).2 = false)
  ∧ (∀ t rec, run unsorted true true agent_state sample_feed !! t = Some rec →
       window_ok (recent_news_sentiments rec)).
Proof.
  apply (producer_news_keep_windows unsorted true true true [ApiArticles sample_batch]).
  repeat constructor.
Defined.
